(** * OrdinalEncoder (feature_engine/encoding/ordinal.py)

    A shallow embedding of the ordinal encoder: the two-phase fit / transform
    protocol, the construction of the category -> code mappings in the
    "ordered" and "arbitrary" modes, and the properties of the learned
    mappings.

    Python objects are modelled as follows.
    - A pandas Series is a list of cells, [None] being the missing-value
      marker (NaN); the dtype is the constructor of [Series].
    - A DataFrame is the list of its (label, column) pairs, in column order.
      Labels may repeat, as in pandas.
    - A dict is a [gmap]; [encoder_dict_] maps a column label to the
      mapping of that column.
    - The encoder instance is a record of its attributes; an attribute that
      has not been assigned yet is [None].
    - A method is a function from the instance to a result and the instance
      after the call: an exception leaves the attributes assigned so far.
    - A float64 other than NaN is the rational it denotes, NaN is [None];
      the infinities are left out. The roundings of the float64 arithmetic
      are the operations of the class [Float64]: the statements hold for
      whatever these operations compute.
    - Rows are matched by position: frames and targets carry the default
      index 0, 1, 2, ... *)

From Stdlib Require Import QArith.
From stdpp Require Import gmap strings list fin_maps sorting.

Local Open Scope string_scope.
Local Open Scope Z_scope.
Local Open Scope list_scope.

(** ** Exceptions *)

Inductive exn :=
  | ValueError (msg : string)
  | TypeError (msg : string)
  | KeyError (key : string)
  | AttributeError (msg : string)
  | DataError (msg : string)
  | NameError (name : string)
  | NotFittedError.

Inductive result (A : Type) :=
  | Ok (a : A)
  | Raise (e : exn).
Arguments Ok {A} a.
Arguments Raise {A} e.

Definition is_Ok {A} (r : result A) : Prop :=
  match r with Ok _ => True | Raise _ => False end.

(** ** Floating point *)

(** The two places where [fit] rounds: the conversion of an integer target
    to float64, and the mean of the float64 values of a group. Which float64
    they return depends on the rounding mode and, for the mean, on the order
    of the additions, which changed between the versions of pandas; they are
    left open here. [binary64] below is one instance. *)
Class Float64 := {
  float_of_int : Z → Q;
  float_mean : list Q → Q
}.

(** ** Series and frames *)

Inductive Series :=
  | ObjSeries (cells : list (option string))
  | IntSeries (cells : list (option Z))
  | FloatSeries (cells : list (option Q)).

Abbreviation DataFrame := (list (string * Series)).

Module pd.

Definition len (s : Series) : nat :=
  match s with
  | ObjSeries l => length l
  | IntSeries l => length l
  | FloatSeries l => length l
  end.

(** [X.columns] *)
Definition columns (X : DataFrame) : list string := X.*1.

(** The length of the row index: every column of a frame has that many
    cells. *)
Definition nrows (X : DataFrame) : nat := max_list (len <$> X.*2).

(** [X.shape] *)
Definition shape (X : DataFrame) : nat * nat := (nrows X, length X).

(** [X[label]]: the columns carrying that label. One column is a Series;
    none is a KeyError; several are a DataFrame. *)
Definition select (X : DataFrame) (label : string) : list Series :=
  (filter (λ c, c.1 = label) X).*2.

(** Reindexing a column on a longer row index fills it with NaN. *)
Definition pad {A} (n : nat) (l : list (option A)) : list (option A) :=
  l ++ replicate (n - length l) None.

Definition reindex (n : nat) (s : Series) : Series :=
  match s with
  | ObjSeries l => ObjSeries (pad n l)
  | IntSeries l => IntSeries (pad n l)
  | FloatSeries l => FloatSeries (pad n l)
  end.

(** [pd.concat([X, y], axis=1)]: the columns of [X] followed by [y], on
    the union of the two row indexes (both are positional here). The label
    of the last column is the name of [y], which the caller overwrites. *)
Definition concat (X : DataFrame) (y : Series) : DataFrame :=
  let n := Nat.max (nrows X) (len y) in
  (prod_map id (reindex n) <$> X) ++ [("", reindex n y)].

(** [temp.columns = labels] *)
Definition set_columns (temp : DataFrame) (labels : list string)
    : result DataFrame :=
  if decide (length labels = length temp)
  then Ok (zip labels temp.*2)
  else Raise (ValueError "Length mismatch").

(** [Series.unique()]: the distinct values in order of appearance. *)
Fixpoint unique_from {A} `{EqDecision A} (seen l : list A) : list A :=
  match l with
  | [] => []
  | x :: l' =>
      if decide (x ∈ seen) then unique_from seen l'
      else x :: unique_from (x :: seen) l'
  end.

Definition unique {A} `{EqDecision A} (l : list A) : list A :=
  unique_from [] l.

(** Insertion sort, stable, by a boolean "less or equal". *)
Fixpoint insert_sorted {A} (leb : A → A → bool) (x : A) (l : list A)
    : list A :=
  match l with
  | [] => [x]
  | y :: l' =>
      if leb x y then x :: l else y :: insert_sorted leb x l'
  end.

Definition sort {A} (leb : A → A → bool) (l : list A) : list A :=
  foldr (insert_sorted leb) [] l.

Section float64.
Context {float64 : Float64}.

(** The float64 view of a column: an integer column is converted, an object
    column (labels that do not read as numbers) has none. *)
Definition numeric (s : Series) : option (list (option Q)) :=
  match s with
  | ObjSeries _ => None
  | IntSeries l => Some ((λ c : option Z, float_of_int <$> c) <$> l)
  | FloatSeries l => Some l
  end.

(** [mean()] skips NaN; the mean of no value is NaN. *)
Definition mean (l : list (option Q)) : option Q :=
  let vals := omap id l in
  match vals with
  | [] => None
  | _ => Some (float_mean vals)
  end.

(** The target cells of the rows of one group. *)
Definition group_cells (keys : list (option string))
    (target : list (option Q)) (k : string) : list (option Q) :=
  (filter (λ r, r.1 = Some k) (zip keys target)).*2.

(** [groupby([var])[target].mean()] on a key column and a numeric target
    column: one entry per distinct key, in ascending key order; rows whose
    key is NaN belong to no group. *)
Definition groupby_mean (keys : list (option string))
    (target : list (option Q)) : list (string * option Q) :=
  (λ k, (k, mean (group_cells keys target k)))
    <$> sort String.leb (unique (omap id keys)).

End float64.

(** Ascending order of the values, NaN last. *)
Definition value_leb (a b : option Q) : bool :=
  match a, b with
  | Some x, Some y => Qle_bool x y
  | _, None => true
  | None, Some _ => false
  end.

(** [.sort_values(ascending=True)]. Equal values keep the order they had,
    as in the insertion sort that numpy runs on short arrays; on long arrays
    numpy does not fix their order, and no general statement below depends
    on it. *)
Definition sort_values {K} (s : list (K * option Q))
    : list (K * option Q) :=
  sort (λ a b, value_leb a.2 b.2) s.

(** [.index] *)
Definition index {K V} (s : list (K * V)) : list K := s.*1.

(** [Series.map] cell by cell: NaN stays NaN, and a value that is not a
    key of the dict becomes NaN. *)
Definition map_cells {A B} (f : A → option B) (l : list (option A))
    : list (option B) :=
  List.map (λ c, match c with Some a => f a | None => None end) l.

Definition all_nan {A B} (l : list A) : list (option B) :=
  replicate (length l) None.

(** [Series.map(d)] for a dict keyed by strings. No number is equal to a
    string. *)
Definition map_codes (d : gmap string Z) (s : Series) : Series :=
  match s with
  | ObjSeries l => IntSeries (map_cells (λ k, d !! k) l)
  | IntSeries l => IntSeries (all_nan l)
  | FloatSeries l => IntSeries (all_nan l)
  end.

(** The integer a float is equal to, if any. *)
Definition Q_to_Z (q : Q) : option Z :=
  if decide (Z.rem (Qnum q) (Z.pos (Qden q)) = 0)
  then Some (Z.quot (Qnum q) (Z.pos (Qden q)))
  else None.

(** [Series.map(d)] for a dict keyed by integers. *)
Definition map_labels (d : gmap Z string) (s : Series) : Series :=
  match s with
  | ObjSeries l => ObjSeries (all_nan l)
  | IntSeries l => ObjSeries (map_cells (λ v, d !! v) l)
  | FloatSeries l =>
      ObjSeries
        (map_cells
           (λ q, match Q_to_Z q with Some v => d !! v | None => None end) l)
  end.

(** [X[label] = f(X[label])] *)
Definition update_column (label : string) (f : Series → Series)
    (X : DataFrame) : DataFrame :=
  (λ c : string * Series, if decide (c.1 = label) then (c.1, f c.2) else c)
    <$> X.

End pd.

(** ** The encoder instance and its methods *)

Record OrdinalEncoder := mkOrdinalEncoder {
  encoding_method : string;
  variables : option (list string);
  encoder_dict_ : option (gmap string (gmap string Z));
  input_shape_ : option (nat * nat)
}.

(** A method: the instance goes in, the outcome and the instance as the call
    left it come out. *)
Definition M (A : Type) : Type :=
  OrdinalEncoder → result A * OrdinalEncoder.

#[global] Instance M_ret : MRet M := λ A a self, (Ok a, self).

#[global] Instance M_bind : MBind M := λ A B f m self,
  match m self with
  | (Ok a, self') => f a self'
  | (Raise e, self') => (Raise e, self')
  end.

Definition raise {A} (e : exn) : M A := λ self, (Raise e, self).

Definition get {A} (attr : OrdinalEncoder → A) : M A :=
  λ self, (Ok (attr self), self).

Definition modify (f : OrdinalEncoder → OrdinalEncoder) : M unit :=
  λ self, (Ok tt, f self).

Definition lift {A} (r : result A) : M A := λ self, (r, self).

(** [for x in l: body] *)
Fixpoint for_each {A} (l : list A) (body : A → M unit) : M unit :=
  match l with
  | [] => mret tt
  | x :: l' => body x;; for_each l' body
  end.

Definition set_variables (vs : list string) : M unit :=
  modify (λ self,
    mkOrdinalEncoder (encoding_method self) (Some vs) (encoder_dict_ self)
      (input_shape_ self)).

(** [self.encoder_dict_ = d] *)
Definition set_encoder_dict (d : gmap string (gmap string Z)) : M unit :=
  modify (λ self,
    mkOrdinalEncoder (encoding_method self) (variables self) (Some d)
      (input_shape_ self)).

(** [self.encoder_dict_[var] = m] *)
Definition setitem_encoder_dict (var : string) (m : gmap string Z) : M unit :=
  d ← get encoder_dict_;
  match d with
  | Some d => set_encoder_dict (<[var := m]> d)
  | None => raise (AttributeError "encoder_dict_")
  end.

Definition set_input_shape (sh : nat * nat) : M unit :=
  modify (λ self,
    mkOrdinalEncoder (encoding_method self) (variables self)
      (encoder_dict_ self) (Some sh)).

(** Modelled from the spec: [_check_input_parameter_variables] of
    feature_engine.variable_manipulation is not part of the sources. The
    columns are either left unresolved ([None]) or supplied explicitly, and
    are kept as given. *)
Definition _check_input_parameter_variables
    (variables : option (list string)) : option (list string) :=
  variables.

(** [OrdinalEncoder.__init__], lines 78-90. *)
Definition __init__ (encoding_method : string)
    (variables : option (list string)) : result OrdinalEncoder :=
  if decide (encoding_method ∉ ["ordered"; "arbitrary"]) then
    Raise
      (ValueError "encoding_method takes only values 'ordered' and 'arbitrary'")
  else
    Ok (mkOrdinalEncoder encoding_method
          (_check_input_parameter_variables variables) None None).

(** *** The input validation of the base class *)

Definition is_object (s : Series) : bool :=
  match s with ObjSeries _ => true | _ => false end.

Definition has_nan (s : Series) : bool :=
  match s with
  | ObjSeries l => bool_decide (None ∈ l)
  | IntSeries l => bool_decide (None ∈ l)
  | FloatSeries l => existsb (λ c, match c with None => true | _ => false end) l
  end.

(** The labelled (object) columns of a frame. *)
Definition categorical_columns (X : DataFrame) : list string :=
  (filter (λ c, is_object c.2 = true) X).*1.

(** Modelled from the spec: [_check_fit_input_and_variables] of the base
    class is not part of the sources. Columns that were not configured are
    resolved to all the labelled columns of [X]; the configured columns must
    exist in [X], be labelled columns and hold no missing value. The frame is
    returned as it is. *)
Definition _check_fit_input_and_variables (X : DataFrame) : M DataFrame :=
  configured ← get variables;
  let vars := default (categorical_columns X) configured in
  if negb (forallb (λ v, bool_decide (pd.select X v ≠ [])) vars) then
    raise (KeyError "variables")
  else if negb (forallb (λ v, forallb is_object (pd.select X v)) vars) then
    raise (TypeError "variables are not categorical")
  else
    set_variables vars;;
    if existsb (λ v, existsb has_nan (pd.select X v)) vars then
      raise (ValueError "variables contain NaN")
    else mret X.

(** Modelled from the spec: [_check_encoding_dictionary] of the base class
    is not part of the sources. For every configured column, the mapping must
    be non-empty and have no duplicate codes. *)
Definition mapping_ok (m : gmap string Z) : bool :=
  bool_decide (m ≠ ∅) && bool_decide (NoDup (map_to_list m).*2).

Definition _check_encoding_dictionary : M unit :=
  vars ← get variables;
  d ← get encoder_dict_;
  if forallb
       (λ v, match default ∅ d !! v with
             | Some m => mapping_ok m
             | None => false
             end)
       (default [] vars)
  then mret tt
  else raise (ValueError "Encoder could not be fitted").

(** *** fit *)

(** [{k: i for i, k in enumerate(t, 0)}] *)
Definition enumerate {A} (t : list A) : list (nat * A) :=
  zip (seq 0 (length t)) t.

Definition dict_of_enumerate (t : list string) : gmap string Z :=
  foldl (λ d ik, <[ik.2 := Z.of_nat ik.1]> d) ∅ (enumerate t).

Section fit_method.
Context {float64 : Float64}.

(** [temp.groupby([var])["target"].mean().sort_values(ascending=True).index]
    Grouping by a label that several columns carry, aggregating a selection
    that is several columns, and taking the mean of a target of labels all
    raise; the class of the exception depends on the version of pandas, and
    no general statement depends on it. The validation has left only
    labelled columns as keys. *)
Definition ordered_index (temp : DataFrame) (var : string)
    : result (list string) :=
  match pd.select temp var with
  | [] => Raise (KeyError var)
  | [ObjSeries keys] =>
      match pd.select temp "target" with
      | [] => Raise (KeyError "Column not found: target")
      | [target] =>
          match pd.numeric target with
          | Some cells =>
              Ok (pd.index (pd.sort_values (pd.groupby_mean keys cells)))
          | None => Raise (DataError "No numeric types to aggregate")
          end
      | _ :: _ :: _ =>
          Raise (AttributeError "'DataFrame' object has no attribute 'name'")
      end
  | [_] => Raise (TypeError "key column is not categorical")
  | _ :: _ :: _ => Raise (ValueError "Grouper not 1-dimensional")
  end.

(** [X[var].unique()] The validation has left only labelled columns without
    missing values. *)
Definition arbitrary_index (X : DataFrame) (var : string)
    : result (list string) :=
  match pd.select X var with
  | [] => Raise (KeyError var)
  | [ObjSeries cells] => Ok (pd.unique (omap id cells))
  | [_] => Raise (TypeError "column is not categorical")
  | _ :: _ :: _ =>
      Raise (AttributeError "'DataFrame' object has no attribute 'unique'")
  end.

(** Lines 125-130: in the "ordered" mode the target is joined to the frame
    as a last column, which is given the label "target". *)
Definition join_target (method : string) (X : DataFrame) (y : option Series)
    : result (option DataFrame) :=
  if decide (method = "ordered") then
    match y with
    | None =>
        Raise (ValueError "Please provide a target y for this encoding method")
    | Some y =>
        match pd.set_columns (pd.concat X y) (pd.columns X ++ ["target"]) with
        | Ok temp => Ok (Some temp)
        | Raise e => Raise e
        end
    end
  else Ok None.

(** Lines 137-146: the categories of one column, in the order of their
    codes. A local variable that was never assigned is a NameError. *)
Definition column_index (method : string) (temp : option DataFrame)
    (X : DataFrame) (var : string) : result (list string) :=
  if decide (method = "ordered") then
    match temp with
    | Some temp => ordered_index temp var
    | None => Raise (NameError "temp")
    end
  else if decide (method = "arbitrary") then arbitrary_index X var
  else Raise (NameError "t").

(** The body of the loop over [self.variables]. *)
Definition fit_column (method : string) (temp : option DataFrame)
    (X : DataFrame) (var : string) : M unit :=
  t ← lift (column_index method temp X var);
  setitem_encoder_dict var (dict_of_enumerate t).

(** [OrdinalEncoder.fit], lines 92-154. *)
Definition fit (X : DataFrame) (y : option Series) : M unit :=
  X ← _check_fit_input_and_variables X;
  method ← get encoding_method;
  (* join target to predictor variables *)
  temp ← lift (join_target method X y);
  (* find mappings *)
  set_encoder_dict ∅;;
  vars ← get variables;
  match vars with
  | None => raise (TypeError "'NoneType' object is not iterable")
  | Some vars => for_each vars (fit_column method temp X)
  end;;
  _check_encoding_dictionary;;
  set_input_shape (pd.shape X);;
  mret tt.

End fit_method.

(** *** transform and inverse_transform *)

(** Modelled from the spec: [_check_transform_input_and_state] of the base
    class is not part of the sources. The encoder must have been fitted, the
    configured columns must be present in [X], and [X] must have as many
    columns as the frame seen by [fit]; the configured columns must hold no
    missing value (sections 6 and 7 of the spec: value error). *)
Definition _check_transform_input_and_state (X : DataFrame) : M DataFrame :=
  vars ← get variables;
  d ← get encoder_dict_;
  sh ← get input_shape_;
  match vars, d, sh with
  | Some vars, Some d, Some sh =>
      if negb (forallb (λ v, bool_decide (is_Some (d !! v))) vars) then
        raise NotFittedError
      else if negb (forallb (λ v, bool_decide (pd.select X v ≠ [])) vars) then
        raise (KeyError "variables")
      else if existsb (λ v, existsb has_nan (pd.select X v)) vars then
        raise (ValueError "variables contain NaN")
      else if negb (bool_decide (length X = sh.2)) then
        raise (ValueError "the number of columns differs from the fit input")
      else mret X
  | _, _, _ => raise NotFittedError
  end.

(** Every configured column has its cells replaced through [f] applied to
    the mapping of that column; the other columns are left as they are. *)
Definition replace_configured (f : gmap string Z → Series → Series)
    (vars : list string) (d : gmap string (gmap string Z)) (X : DataFrame)
    : DataFrame :=
  (λ c : string * Series,
     if decide (c.1 ∈ vars) then
       match d !! c.1 with
       | Some m => (c.1, f m c.2)
       | None => c
       end
     else c) <$> X.

(** Modelled from the spec: [transform] of the base class is not part of
    the sources. For each configured column, each cell's category is
    replaced with its code in the mapping of the column; a category that is
    not in the mapping becomes the missing-value marker. *)
Definition base_transform (X : DataFrame) : M DataFrame :=
  X ← _check_transform_input_and_state X;
  vars ← get variables;
  d ← get encoder_dict_;
  mret (replace_configured pd.map_codes (default [] vars) (default ∅ d) X).

(** The code -> category dict of a mapping. *)
Definition inv_map (m : gmap string Z) : gmap Z string :=
  list_to_map (prod_swap <$> map_to_list m).

(** Modelled from the spec: [inverse_transform] of the base class is not
    part of the sources. For each configured column, each code is replaced
    with its category through the inverse of the mapping of the column; a
    code that is not among the learned codes becomes the missing-value
    marker. *)
Definition base_inverse_transform (X : DataFrame) : M DataFrame :=
  X ← _check_transform_input_and_state X;
  vars ← get variables;
  d ← get encoder_dict_;
  mret (replace_configured (λ m, pd.map_labels (inv_map m))
          (default [] vars) (default ∅ d) X).

(** [OrdinalEncoder.transform], lines 157-160, and
    [OrdinalEncoder.inverse_transform], lines 164-167. *)
Definition transform (X : DataFrame) : M DataFrame :=
  X ← base_transform X;
  mret X.

Definition inverse_transform (X : DataFrame) : M DataFrame :=
  X ← base_inverse_transform X;
  mret X.

(** ** Vocabulary of the statements *)

Section vocabulary.
Context {float64 : Float64}.

(** What the validation of [fit] leaves of a configured column. *)
Definition valid_column (X : DataFrame) (v : string) : Prop :=
  pd.select X v ≠ [] ∧
  Forall (λ s, is_object s = true ∧ has_nan s = false) (pd.select X v).

(** The columns [fit] works on: the configured ones, or all the labelled
    columns of the frame. *)
Definition resolved_variables (e : OrdinalEncoder) (X : DataFrame)
    : list string :=
  default (categorical_columns X) (variables e).

Definition with_variables (e : OrdinalEncoder) (vs : list string)
    : OrdinalEncoder :=
  mkOrdinalEncoder (encoding_method e) (Some vs) (encoder_dict_ e)
    (input_shape_ e).

Definition with_encoder_dict (e : OrdinalEncoder)
    (d : gmap string (gmap string Z)) : OrdinalEncoder :=
  mkOrdinalEncoder (encoding_method e) (variables e) (Some d) (input_shape_ e).

(** The frame [temp] of the "ordered" mode. *)
Definition joined (X : DataFrame) (y : Series) : DataFrame :=
  let n := Nat.max (pd.nrows X) (pd.len y) in
  (prod_map id (pd.reindex n) <$> X) ++ [("target", pd.reindex n y)].

(** The four ways a call of [fit] ends: the validation raises; the target
    is missing; an exception is raised once the dict has been reset; [fit]
    returns. *)
Inductive fit_outcome (X : DataFrame) (y : option Series)
    (e : OrdinalEncoder) : result unit * OrdinalEncoder → Prop :=
  | fit_invalid ex e' :
      _check_fit_input_and_variables X e = (Raise ex, e') →
      encoder_dict_ e' = encoder_dict_ e →
      fit_outcome X y e (Raise ex, e')
  | fit_no_target ex :
      _check_fit_input_and_variables X e
      = (Ok X, with_variables e (resolved_variables e X)) →
      Forall (valid_column X) (resolved_variables e X) →
      join_target (encoding_method e) X y = Raise ex →
      fit_outcome X y e (Raise ex, with_variables e (resolved_variables e X))
  | fit_late ex temp d stored rest :
      _check_fit_input_and_variables X e
      = (Ok X, with_variables e (resolved_variables e X)) →
      Forall (valid_column X) (resolved_variables e X) →
      join_target (encoding_method e) X y = Ok temp →
      resolved_variables e X = stored ++ rest →
      (∀ v, v ∈ stored →
         ∃ t, column_index (encoding_method e) temp X v = Ok t ∧
              d !! v = Some (dict_of_enumerate t)) →
      (∀ v, v ∉ stored → d !! v = None) →
      fit_outcome X y e
        (Raise ex,
         with_encoder_dict (with_variables e (resolved_variables e X)) d)
  | fit_done temp d :
      _check_fit_input_and_variables X e
      = (Ok X, with_variables e (resolved_variables e X)) →
      Forall (valid_column X) (resolved_variables e X) →
      join_target (encoding_method e) X y = Ok temp →
      (∀ v, v ∈ resolved_variables e X →
         ∃ t, column_index (encoding_method e) temp X v = Ok t ∧
              d !! v = Some (dict_of_enumerate t) ∧
              mapping_ok (dict_of_enumerate t) = true) →
      (∀ v, v ∉ resolved_variables e X → d !! v = None) →
      fit_outcome X y e
        (Ok tt,
         mkOrdinalEncoder (encoding_method e) (Some (resolved_variables e X))
           (Some d) (Some (pd.shape X))).

(** What the validation of [transform] asks of the instance and of the
    labels of the frame. *)
Definition transform_input_ok (e : OrdinalEncoder) (labels : list string)
    : Prop :=
  ∃ vars d sh,
    variables e = Some vars ∧ encoder_dict_ e = Some d ∧
    input_shape_ e = Some sh ∧
    (∀ v, v ∈ vars → is_Some (d !! v) ∧ v ∈ labels) ∧
    length labels = sh.2.

(** No cell of a configured column is missing. *)
Definition no_missing (vars : list string) (X : DataFrame) : Prop :=
  ∀ v s, v ∈ vars → s ∈ pd.select X v → has_nan s = false.

(** The configured columns of [X] are labelled columns, and each of their
    categories is in the column of the same label of the fit input [X0]. *)
Definition categories_seen (X0 : DataFrame) (vars : list string)
    (X : DataFrame) : Prop :=
  ∀ v s, v ∈ vars → s ∈ pd.select X v →
    ∃ cells cells0,
      s = ObjSeries cells ∧ pd.select X0 v = [ObjSeries cells0] ∧
      ∀ c, Some c ∈ cells → Some c ∈ cells0.

(** ** The loop of [fit] as a function of the dict *)

(** What the loop over [self.variables] stores in the dict, and how it
    ends: the iterations before the first exception have stored their
    mappings. *)
Fixpoint store_mappings (index_of : string → result (list string))
    (vars : list string) (d : gmap string (gmap string Z))
    : result unit * gmap string (gmap string Z) :=
  match vars with
  | [] => (Ok tt, d)
  | var :: vars' =>
      match index_of var with
      | Ok t => store_mappings index_of vars' (<[var := dict_of_enumerate t]> d)
      | Raise ex => (Raise ex, d)
      end
  end.

(** The test of [_check_encoding_dictionary]. *)
Definition dict_checked (vars : list string)
    (d : gmap string (gmap string Z)) : bool :=
  forallb
    (λ v, match d !! v with
          | Some m => mapping_ok m
          | None => false
          end)
    vars.

(** The categories of a column in ascending order of the mean of the
    target, the rows that the target does not have holding NaN. *)
Definition ordered_categories (cells : list (option string))
    (ys : list (option Q)) : list string :=
  pd.index
    (pd.sort_values (pd.groupby_mean cells (pd.pad (length cells) ys))).

(** The mapping that [fit] has stored for a column, if any. *)
Definition learned_mapping (e : OrdinalEncoder) (v : string)
    : option (gmap string Z) :=
  match encoder_dict_ e with
  | Some d => d !! v
  | None => None
  end.

End vocabulary.

(** ** An instance of the float64 operations *)

(** The integer nearest to [n / d], halves going to the even one; [n] is not
    negative and [d] is positive. *)
Definition round_half_even (n d : Z) : Z :=
  let q := n / d in
  match Z.compare (2 * (n mod d)) d with
  | Lt => q
  | Gt => q + 1
  | Eq => if Z.even q then q else q + 1
  end.

(** [n / d] divided by [2 ^ e], as a fraction. *)
Definition scaled (n d e : Z) : Z * Z :=
  if decide (0 ≤ e) then (n, d * 2 ^ e) else (n * 2 ^ (- e), d).

(** The nearest rational with a significand of 53 bits, for positive [n]
    and [d]. The exponent is not bounded: no overflow, no subnormal
    numbers. *)
Definition round64_pos (n d : Z) : Q :=
  let k := Z.log2 n - Z.log2 d in
  let below := let '(N, D) := scaled n d k in bool_decide (N < D) in
  let e := (if below then k - 1 else k) - 52 in
  let '(N, D) := scaled n d e in
  let m := round_half_even N D in
  Qred (if decide (0 ≤ e) then inject_Z (m * 2 ^ e)
        else Qmake m (Z.to_pos (2 ^ (- e)))).

Definition round64 (q : Q) : Q :=
  match Qnum q with
  | 0 => (0 # 1)%Q
  | Z.pos n => round64_pos (Z.pos n) (Z.pos (Qden q))
  | Z.neg n => Qopp (round64_pos (Z.pos n) (Z.pos (Qden q)))
  end.

(** Round to nearest, ties to even; the mean is the sum of the values in
    their order, rounded after each addition, divided by their number. *)
Definition binary64 : Float64 := {|
  float_of_int z := round64 (inject_Z z);
  float_mean vals :=
    round64
      (foldl (λ acc x, round64 (acc + x)%Q) (0 # 1)%Q vals
       / inject_Z (Z.of_nat (length vals)))%Q
|}.

(** The arithmetic mean of the specification, in exact arithmetic, of the
    values of the target that are not NaN; and the exact values of a
    target. *)
Definition arithmetic_mean (l : list (option Q)) : option Q :=
  let vals := omap id l in
  match vals with
  | [] => None
  | _ => Some (foldr Qplus (0 # 1) vals / inject_Z (Z.of_nat (length vals)))%Q
  end.

Definition exact_values (s : Series) : option (list (option Q)) :=
  match s with
  | ObjSeries _ => None
  | IntSeries l => Some ((λ c : option Z, inject_Z <$> c) <$> l)
  | FloatSeries l => Some l
  end.

(** ** The running example: the column "colour" and its target *)

Section example.
#[local] Existing Instance binary64.

Definition colour_cells : list (option string) :=
  [Some "blue"; Some "red"; Some "grey"; Some "blue"; Some "red"; Some "red"].

Definition colour_frame : DataFrame := [("colour", ObjSeries colour_cells)].

(** The float64 values 0.5, 0.8, 0.1, 0.6, 0.9 and 0.7. *)
Definition target_cells : list (option Q) :=
  (λ q, Some (round64 q))
    <$> [(5 # 10)%Q; (8 # 10)%Q; (1 # 10)%Q; (6 # 10)%Q; (9 # 10)%Q;
         (7 # 10)%Q].

(** The means of the target that [fit] computes on the example. *)
Definition colour_mean (c : string) : Q :=
  default (0 # 1)%Q (pd.mean (pd.group_cells colour_cells target_cells c)).

Definition colour_target : Series := FloatSeries target_cells.

(** A target of class labels. *)
Definition label_target : Series :=
  ObjSeries
    [Some "yes"; Some "no"; Some "no"; Some "yes"; Some "no"; Some "yes"].

(** The same frame with a second feature, a numeric column labelled
    "target", and with that feature under another label. *)
Definition target_frame : DataFrame :=
  [("colour", ObjSeries colour_cells);
   ("target", IntSeries [Some 1; Some 2; Some 3; Some 4; Some 5; Some 6])].

Definition renamed_frame : DataFrame :=
  [("colour", ObjSeries colour_cells);
   ("feature", IntSeries [Some 1; Some 2; Some 3; Some 4; Some 5; Some 6])].

(** A frame without rows. *)
Definition empty_frame : DataFrame := [("colour", ObjSeries [])].

(** A frame to transform whose categories [fit] has all seen. *)
Definition seen_frame : DataFrame :=
  [("colour", ObjSeries [Some "blue"; Some "grey"; Some "red"])].

(** A frame to transform, with the category "green" that [fit] has not
    seen. *)
Definition unseen_frame : DataFrame :=
  [("colour", ObjSeries [Some "blue"; Some "grey"; Some "red"; Some "green"])].

Definition ordered_encoder : OrdinalEncoder :=
  mkOrdinalEncoder "ordered" (Some ["colour"]) None None.

Definition arbitrary_encoder : OrdinalEncoder :=
  mkOrdinalEncoder "arbitrary" (Some ["colour"]) None None.

(** The encoders after [fit] on the example. *)
Definition ordered_fitted : OrdinalEncoder :=
  (fit colour_frame (Some colour_target) ordered_encoder).2.

Definition arbitrary_fitted : OrdinalEncoder :=
  (fit colour_frame None arbitrary_encoder).2.

Definition colour_mapping (e : OrdinalEncoder) : gmap string Z :=
  default ∅ (default ∅ (encoder_dict_ e) !! "colour").

(** ** Further instances of the running example *)

(** An instance that holds the leftovers of an earlier [fit] on other
    data. *)
Definition stale_encoder : OrdinalEncoder :=
  mkOrdinalEncoder "ordered" (Some ["colour"])
    (Some {["shape" := {["round" := 0]}]}) (Some (3%nat, 7%nat)).

(** An instance whose [encoding_method] was assigned after the
    construction. *)
Definition mean_encoder : OrdinalEncoder :=
  mkOrdinalEncoder "mean" (Some ["colour"]) None None.

(** The column "colour" listed twice. *)
Definition repeated_encoder : OrdinalEncoder :=
  mkOrdinalEncoder "arbitrary" (Some ["colour"; "colour"]) None None.

(** The frame of the example with two more rows. *)
Definition longer_frame : DataFrame :=
  [("colour", ObjSeries (colour_cells ++ [Some "green"; Some "blue"]))].

(** The target of the example with one more value. *)
Definition longer_target : Series :=
  FloatSeries (target_cells ++ [Some (3 # 1)%Q]).

(** Two columns to encode, and a row whose colour was in the fit input and
    whose shape was not. *)
Definition shapes_frame : DataFrame :=
  [("colour", ObjSeries colour_cells);
   ("shape",
    ObjSeries
      [Some "round"; Some "square"; Some "round"; Some "square";
       Some "round"; Some "round"])].

Definition shapes_encoder : OrdinalEncoder :=
  mkOrdinalEncoder "arbitrary" (Some ["colour"; "shape"]) None None.

Definition shapes_fitted : OrdinalEncoder :=
  (fit shapes_frame None shapes_encoder).2.

Definition mixed_row : DataFrame :=
  [("colour", ObjSeries [Some "blue"]); ("shape", ObjSeries [Some "hexagon"])].

(** Two categories with one row each, and an integer target whose values
    2^53 + 1 and 2^53 are the same float64. *)
Definition letter_frame : DataFrame :=
  [("letter", ObjSeries [Some "a"; Some "b"])].

Definition large_target : Series :=
  IntSeries [Some (2 ^ 53 + 1); Some (2 ^ 53)].

Definition letter_encoder : OrdinalEncoder :=
  mkOrdinalEncoder "ordered" (Some ["letter"]) None None.

End example.

(** * Properties *)

Section properties.
Context {float64 : Float64}.

(** ** [unique]: distinct values in order of first appearance *)

Section unique.
Context {A : Type} `{EqDecision A}.
Implicit Types (l seen : list A) (x : A).

Lemma elem_of_unique_from seen l x :
  x ∈ pd.unique_from seen l ↔ x ∈ l ∧ x ∉ seen.
Proof.
  revert seen. induction l as [|a l IH]; intros seen; simpl.
  - set_solver.
  - case_decide as Ha.
    + rewrite IH, elem_of_cons.
      split; [naive_solver|]. intros [[->|Hx] Hn]; done.
    + rewrite !elem_of_cons, IH, not_elem_of_cons.
      destruct (decide (x = a)) as [->|Hne]; naive_solver.
Qed.

Lemma NoDup_unique_from seen l : NoDup (pd.unique_from seen l).
Proof.
  revert seen. induction l as [|a l IH]; intros seen; simpl.
  - constructor.
  - case_decide; [apply IH|].
    constructor; [|apply IH].
    rewrite elem_of_unique_from. set_solver.
Qed.

Lemma unique_from_ext seen seen' l :
  (∀ x, x ∈ seen ↔ x ∈ seen') →
  pd.unique_from seen l = pd.unique_from seen' l.
Proof.
  revert seen seen'. induction l as [|a l IH]; intros seen seen' Hs; simpl.
  - done.
  - destruct (decide (a ∈ seen)) as [Ha|Ha], (decide (a ∈ seen')) as [Ha'|Ha'].
    + by apply IH.
    + by apply Hs in Ha.
    + by apply Hs in Ha'.
    + f_equal. apply IH. set_solver.
Qed.

Lemma unique_from_app seen l1 l2 :
  pd.unique_from seen (l1 ++ l2)
  = pd.unique_from seen l1 ++ pd.unique_from (l1 ++ seen) l2.
Proof.
  revert seen. induction l1 as [|a l1 IH]; intros seen; simpl.
  - done.
  - case_decide as Ha.
    + rewrite IH. f_equal. apply unique_from_ext. set_solver.
    + simpl. f_equal. rewrite IH. f_equal. apply unique_from_ext. set_solver.
Qed.

Lemma elem_of_unique l x : x ∈ pd.unique l ↔ x ∈ l.
Proof. unfold pd.unique. rewrite elem_of_unique_from. set_solver. Qed.

Lemma NoDup_unique l : NoDup (pd.unique l).
Proof. apply NoDup_unique_from. Qed.

(** A value that does not occur in [pre] comes, in [unique], right after
    the distinct values of [pre]. *)
Lemma unique_first_appearance pre x post :
  x ∉ pre →
  pd.unique (pre ++ x :: post) !! length (pd.unique pre) = Some x.
Proof.
  intros Hx. unfold pd.unique. rewrite unique_from_app. simpl.
  rewrite decide_False by set_solver.
  rewrite lookup_app_r by done.
  by rewrite Nat.sub_diag.
Qed.
End unique.

Lemma length_unique_size `{Countable A} (l : list A) :
  length (pd.unique l) = size (list_to_set l : gset A).
Proof.
  rewrite <- (size_list_to_set (C:=gset A) (pd.unique l)) by apply NoDup_unique.
  f_equal. apply set_eq. intros x.
  by rewrite !elem_of_list_to_set, elem_of_unique.
Qed.

(** ** [sort]: a sorted permutation *)

Section sort.
Context {A : Type} (leb : A → A → bool).

Lemma insert_sorted_Permutation x l : pd.insert_sorted leb x l ≡ₚ x :: l.
Proof.
  induction l as [|y l IH]; simpl; [done|].
  destruct (leb x y); [done|].
  rewrite IH. apply Permutation_swap.
Qed.

Lemma sort_Permutation l : pd.sort leb l ≡ₚ l.
Proof.
  induction l as [|x l IH]; simpl; [done|].
  by rewrite insert_sorted_Permutation, IH.
Qed.

Hypothesis leb_total : ∀ x y, leb x y = true ∨ leb y x = true.
Hypothesis leb_trans :
  ∀ x y z, leb x y = true → leb y z = true → leb x z = true.

Lemma insert_sorted_StronglySorted x l :
  StronglySorted (λ a b, leb a b = true) l →
  StronglySorted (λ a b, leb a b = true) (pd.insert_sorted leb x l).
Proof.
  induction 1 as [|y l Hl IH Hy]; simpl.
  - repeat constructor.
  - destruct (leb x y) eqn:Hxy.
    + constructor; [by constructor|].
      constructor; [done|].
      eapply Forall_impl; [exact Hy|]. intros z Hz. by eapply leb_trans.
    + constructor; [done|].
      rewrite insert_sorted_Permutation. constructor; [|done].
      destruct (leb_total x y); congruence.
Qed.

Lemma sort_StronglySorted l :
  StronglySorted (λ a b, leb a b = true) (pd.sort leb l).
Proof.
  induction l as [|x l IH]; simpl; [constructor|].
  by apply insert_sorted_StronglySorted.
Qed.
End sort.

(** ** The dict comprehension over [enumerate] *)

Section dict_of_enumerate.
Implicit Types (t : list string) (d : gmap string Z) (k : string).

Lemma foldl_enumerate_notin t d (n : nat) k :
  k ∉ t →
  foldl (λ d (ik : nat * string), <[ik.2 := Z.of_nat ik.1]> d) d
    (zip (seq n (length t)) t) !! k = d !! k.
Proof.
  revert d n. induction t as [|x t IH]; intros d n Hk; simpl; [done|].
  apply not_elem_of_cons in Hk as [Hne Hk].
  rewrite IH by done. by rewrite lookup_insert_ne.
Qed.

Lemma foldl_enumerate_lookup t d (n i : nat) k :
  NoDup t → t !! i = Some k →
  foldl (λ d (ik : nat * string), <[ik.2 := Z.of_nat ik.1]> d) d
    (zip (seq n (length t)) t) !! k = Some (Z.of_nat (n + i)).
Proof.
  revert d n i. induction t as [|x t IH]; intros d n i Hnd Hi; [done|].
  apply NoDup_cons in Hnd as [Hx Hnd]. simpl.
  destruct i as [|i]; simpl in Hi.
  - injection Hi as ->.
    rewrite foldl_enumerate_notin by done.
    rewrite lookup_insert_eq. do 2 f_equal. lia.
  - rewrite (IH _ _ i) by done. do 2 f_equal. lia.
Qed.

Lemma lookup_dict_of_enumerate t k z :
  NoDup t →
  dict_of_enumerate t !! k = Some z ↔
  ∃ i : nat, t !! i = Some k ∧ z = Z.of_nat i.
Proof.
  intros Hnd. unfold dict_of_enumerate, enumerate. split.
  - intros Hz. destruct (decide (k ∈ t)) as [Hk|Hk].
    + apply list_elem_of_lookup in Hk as [i Hi]. exists i. split; [done|].
      rewrite (foldl_enumerate_lookup t ∅ 0 i) in Hz by done.
      by injection Hz as <-.
    + by rewrite foldl_enumerate_notin in Hz.
  - intros (i & Hi & ->).
    by rewrite (foldl_enumerate_lookup t ∅ 0 i).
Qed.

(** The codes are exactly [0 .. length t - 1]. *)
Lemma dict_of_enumerate_codes t z :
  NoDup t →
  (∃ k, dict_of_enumerate t !! k = Some z) ↔ 0 ≤ z < Z.of_nat (length t).
Proof.
  intros Hnd. split.
  - intros (k & Hk). apply lookup_dict_of_enumerate in Hk as (i & Hi & ->);
      [|done].
    apply lookup_lt_Some in Hi. lia.
  - intros Hz.
    destruct (lookup_lt_is_Some_2 t (Z.to_nat z)) as [k Hk]; [lia|].
    exists k. apply lookup_dict_of_enumerate; [done|].
    exists (Z.to_nat z). split; [done|lia].
Qed.

(** No two categories share a code. *)
Lemma dict_of_enumerate_inj t k1 k2 z :
  NoDup t →
  dict_of_enumerate t !! k1 = Some z →
  dict_of_enumerate t !! k2 = Some z → k1 = k2.
Proof.
  intros Hnd H1 H2.
  apply lookup_dict_of_enumerate in H1 as (i1 & Hi1 & ->); [|done].
  apply lookup_dict_of_enumerate in H2 as (i2 & Hi2 & Heq); [|done].
  apply Nat2Z.inj in Heq as ->. congruence.
Qed.

Lemma dict_of_enumerate_is_Some t k :
  NoDup t → is_Some (dict_of_enumerate t !! k) ↔ k ∈ t.
Proof.
  intros Hnd. split.
  - intros [z Hz]. apply lookup_dict_of_enumerate in Hz as (i & Hi & _);
      [|done].
    apply list_elem_of_lookup. eauto.
  - intros [i Hi]%list_elem_of_lookup. exists (Z.of_nat i).
    apply lookup_dict_of_enumerate; eauto.
Qed.
End dict_of_enumerate.

(** ** The steps of [fit] *)

Lemma check_fit_input_spec X e :
  let vars := resolved_variables e X in
  (∃ ex e', _check_fit_input_and_variables X e = (Raise ex, e') ∧
     encoding_method e' = encoding_method e ∧
     encoder_dict_ e' = encoder_dict_ e ∧
     input_shape_ e' = input_shape_ e) ∨
  (_check_fit_input_and_variables X e = (Ok X, with_variables e vars) ∧
     Forall (valid_column X) vars).
Proof.
  intros vars. unfold _check_fit_input_and_variables.
  unfold mbind, M_bind, get, raise, set_variables, modify, mret, M_ret.
  fold (resolved_variables e X). fold vars.
  destruct (forallb (λ v, bool_decide (pd.select X v ≠ [])) vars) eqn:H1;
    simpl; [|left; eauto 10].
  destruct (forallb (λ v, forallb is_object (pd.select X v)) vars) eqn:H2;
    simpl; [|left; eauto 10].
  destruct (existsb (λ v, existsb has_nan (pd.select X v)) vars) eqn:H3;
    simpl; [left; eauto 10|].
  right. split; [done|].
  apply Forall_forall. intros v Hv. apply list_elem_of_In in Hv.
  rewrite forallb_forall in H1, H2. split.
  - specialize (H1 v Hv). by apply bool_decide_eq_true in H1.
  - apply Forall_forall. intros s Hs. apply list_elem_of_In in Hs. split.
    + specialize (H2 v Hv). rewrite forallb_forall in H2. by apply H2.
    + destruct (has_nan s) eqn:Hn; [|done].
      assert (existsb (λ v, existsb has_nan (pd.select X v)) vars = true)
        as Hex; [|congruence].
      apply existsb_exists. exists v. split; [done|].
      apply existsb_exists. eauto.
Qed.

Lemma fit_column_eq method temp X var e d :
  encoder_dict_ e = Some d →
  fit_column method temp X var e =
  match column_index method temp X var with
  | Ok t => (Ok tt, with_encoder_dict e (<[var := dict_of_enumerate t]> d))
  | Raise ex => (Raise ex, e)
  end.
Proof.
  intros Hd. unfold fit_column, mbind, M_bind, lift, setitem_encoder_dict.
  destruct (column_index method temp X var); [|done].
  unfold mbind, M_bind, get. by rewrite Hd.
Qed.

(** The loop over the variables: every iteration stores the mapping of its
    column in the dict; the first exception ends the loop, with the mappings
    stored so far. *)
Lemma for_each_fit_column method temp X vars e d :
  encoder_dict_ e = Some d →
  ∃ r d' stored rest,
    for_each vars (fit_column method temp X) e = (r, with_encoder_dict e d') ∧
    vars = stored ++ rest ∧
    (∀ u, r = Ok u → rest = []) ∧
    (∀ v, v ∈ stored →
       ∃ t, column_index method temp X v = Ok t ∧
            d' !! v = Some (dict_of_enumerate t)) ∧
    (∀ v, v ∉ stored → d' !! v = d !! v).
Proof.
  revert e d. induction vars as [|x vars IH]; intros e d Hd; simpl.
  - exists (Ok tt), d, [], []. split_and!; try done.
    + unfold mret, M_ret. f_equal. by destruct e; simplify_eq/=.
    + by intros v ?%elem_of_nil.
  - unfold mbind, M_bind. rewrite (fit_column_eq _ _ _ _ _ d) by done.
    destruct (column_index method temp X x) as [t|ex] eqn:Hx.
    + destruct (IH (with_encoder_dict e (<[x := dict_of_enumerate t]> d))
                  (<[x := dict_of_enumerate t]> d) eq_refl)
        as (r & d' & stored & rest & Heq & -> & Hr & Hin & Hout).
      exists r, d', (x :: stored), rest.
      split_and!; [by rewrite Heq|done|done| |].
      * intros v Hv. destruct (decide (v ∈ stored)) as [Hv'|Hv'];
          [by apply Hin|].
        apply elem_of_cons in Hv as [->|Hv]; [|done].
        exists t. split; [done|].
        by rewrite Hout, lookup_insert_eq.
      * intros v Hv. apply not_elem_of_cons in Hv as [Hne Hv].
        by rewrite Hout, lookup_insert_ne.
    + exists (Raise ex), d, [], (x :: vars). split_and!; try done.
      * f_equal. by destruct e; simplify_eq/=.
      * by intros v ?%elem_of_nil.
Qed.

Lemma check_encoding_dictionary_spec e :
  (∃ ex, _check_encoding_dictionary e = (Raise ex, e)) ∨
  (_check_encoding_dictionary e = (Ok tt, e) ∧
   ∀ v, v ∈ default [] (variables e) →
     ∃ m, default ∅ (encoder_dict_ e) !! v = Some m ∧ mapping_ok m = true).
Proof.
  unfold _check_encoding_dictionary, mbind, M_bind, get, raise, mret, M_ret.
  destruct (forallb _ _) eqn:Hall; [right|left; eauto].
  split; [done|]. intros v Hv%list_elem_of_In.
  rewrite forallb_forall in Hall. specialize (Hall v Hv).
  destruct (default ∅ (encoder_dict_ e) !! v) as [m|]; [eauto|done].
Qed.

Lemma fit_cases X y e : fit_outcome X y e (fit X y e).
Proof.
  unfold fit. unfold mbind at 1. unfold M_bind at 1.
  destruct (check_fit_input_spec X e)
    as [(ex & e' & Hc & _ & Hd & _)|[Hc Hvalid]]; rewrite Hc.
  { by apply fit_invalid. }
  unfold mbind at 1. unfold M_bind at 1. unfold get at 1.
  unfold mbind at 1. unfold M_bind at 1. unfold lift at 1.
  change (encoding_method (with_variables e (resolved_variables e X)))
    with (encoding_method e).
  destruct (join_target (encoding_method e) X y) as [temp|ex] eqn:Hjoin.
  2: { by apply fit_no_target. }
  unfold mbind at 1. unfold M_bind at 1.
  unfold set_encoder_dict at 1. unfold modify at 1.
  unfold mbind at 1. unfold M_bind at 1.
  unfold mbind at 1. unfold M_bind at 1. unfold get at 1.
  destruct (for_each_fit_column (encoding_method e) temp X
              (resolved_variables e X)
              (with_encoder_dict (with_variables e (resolved_variables e X)) ∅)
              ∅ eq_refl)
    as (r & d & stored & rest & Hloop & Hvars & Hr & Hin & Hout).
  unfold with_encoder_dict, with_variables in Hloop |- *.
  simpl in Hloop |- *. rewrite Hloop.
  destruct r as [[]|ex].
  2: { by eapply fit_late. }
  rewrite (Hr tt eq_refl), app_nil_r in Hvars. subst stored.
  unfold mbind at 1. unfold M_bind at 1.
  match goal with
  | |- context [_check_encoding_dictionary ?e3] =>
      destruct (check_encoding_dictionary_spec e3) as [[ex ->]|[-> Hok]]
  end.
  { eapply fit_late; [done|done|done|by rewrite app_nil_r|done|done]. }
  unfold mbind, M_bind, set_input_shape, modify, mret, M_ret. simpl.
  eapply fit_done; [done|done|done| |].
  - intros v Hv. destruct (Hin v Hv) as (t & Ht & Hdv).
    exists t. split_and!; [done|done|].
    destruct (Hok v Hv) as (m & Hm & Hmok). simpl in Hm.
    rewrite Hdv in Hm. by injection Hm as <-.
  - intros v Hv. by rewrite Hout.
Qed.

(** ** Column selection and the joined frame *)

Lemma select_app X1 X2 v : pd.select (X1 ++ X2) v = pd.select X1 v ++ pd.select X2 v.
Proof. unfold pd.select. by rewrite filter_app, fmap_app. Qed.

Lemma select_reindex n X v :
  pd.select (prod_map id (pd.reindex n) <$> X) v = pd.reindex n <$> pd.select X v.
Proof.
  unfold pd.select. induction X as [|[l s] X IH]; [done|].
  rewrite fmap_cons, !filter_cons. simpl.
  case_decide; rewrite ?fmap_cons, IH; done.
Qed.

Lemma select_elem_of X v s : s ∈ pd.select X v → (v, s) ∈ X.
Proof.
  unfold pd.select. intros ([l s'] & -> & Hin)%list_elem_of_fmap.
  apply list_elem_of_filter in Hin as [Hl Hin]. simpl in Hl. by subst.
Qed.

Lemma len_le_nrows X v s : s ∈ pd.select X v → (pd.len s ≤ pd.nrows X)%nat.
Proof.
  intros Hs%select_elem_of. unfold pd.nrows.
  apply max_list_elem_of_le, list_elem_of_fmap. exists s. split; [done|].
  apply list_elem_of_fmap. by exists (v, s).
Qed.

Lemma zip_labels_columns (f : Series → Series) (X : DataFrame) :
  zip X.*1 (prod_map id f <$> X).*2 = prod_map id f <$> X.
Proof.
  induction X as [|[l s] X IH]; [done|].
  rewrite !fmap_cons. simpl. f_equal. exact IH.
Qed.

Lemma join_target_ordered X y :
  join_target "ordered" X y =
  match y with
  | Some y => Ok (Some (joined X y))
  | None =>
      Raise (ValueError "Please provide a target y for this encoding method")
  end.
Proof.
  unfold join_target. rewrite decide_True by done.
  destruct y as [y|]; [|done].
  unfold pd.set_columns, pd.concat, pd.columns.
  rewrite decide_True by (by rewrite !length_app, !length_fmap).
  do 2 f_equal. unfold joined.
  rewrite fmap_app, zip_with_app by (by rewrite !length_fmap).
  f_equal. apply zip_labels_columns.
Qed.

Lemma join_target_not_ordered method X y :
  method ≠ "ordered" → join_target method X y = Ok None.
Proof. intros Hm. unfold join_target. by rewrite decide_False. Qed.

(** ** Padding *)

Lemma omap_pad {A} n (l : list (option A)) : omap id (pd.pad n l) = omap id l.
Proof.
  unfold pd.pad. rewrite omap_app.
  assert (omap id (replicate (n - length l) (@None A)) = []) as ->.
  { induction (n - length l)%nat; done. }
  by rewrite app_nil_r.
Qed.

Lemma pad_nil {A} n : pd.pad (S n) (@nil (option A)) = None :: pd.pad n [].
Proof. unfold pd.pad. simpl. by rewrite Nat.sub_0_r. Qed.

Lemma pad_cons {A} n (x : option A) l :
  pd.pad (S n) (x :: l) = x :: pd.pad n l.
Proof. done. Qed.

Lemma pad_id {A} n (l : list (option A)) :
  (n ≤ length l)%nat → pd.pad n l = l.
Proof.
  intros Hn. unfold pd.pad.
  replace (n - length l)%nat with 0%nat by lia. apply app_nil_r.
Qed.

Lemma group_cells_nil_keys target k n :
  pd.group_cells (replicate n None) target k = [].
Proof.
  unfold pd.group_cells. revert target.
  induction n as [|n IH]; intros [|t target]; try done.
  simpl. rewrite filter_cons_False by done. apply IH.
Qed.

Lemma group_cells_cons key keys t target k :
  pd.group_cells (key :: keys) (t :: target) k =
  if decide (key = Some k) then t :: pd.group_cells keys target k
  else pd.group_cells keys target k.
Proof.
  unfold pd.group_cells. simpl. rewrite filter_cons. simpl.
  by case_decide.
Qed.

(** Grouping the joined columns is grouping the column of [X] with the
    target, the rows the target does not have holding NaN. *)
Lemma group_cells_pad n keys target k :
  (length keys ≤ n)%nat → (length target ≤ n)%nat →
  pd.group_cells (pd.pad n keys) (pd.pad n target) k
  = pd.group_cells keys (pd.pad (length keys) target) k.
Proof.
  revert n target. induction keys as [|key keys IH]; intros n target Hk Ht.
  - unfold pd.pad at 1. simpl. by rewrite group_cells_nil_keys.
  - destruct n as [|n]; [simpl in Hk; lia|]. simpl length.
    destruct target as [|t target].
    + rewrite !pad_nil, pad_cons, !group_cells_cons.
      rewrite (IH n []) by (simpl in *; lia). done.
    + rewrite !pad_cons, !group_cells_cons.
      rewrite (IH n target) by (simpl in *; lia). done.
Qed.

Lemma group_cells_elem_of keys target k :
  pd.group_cells keys target k ≠ [] → Some k ∈ keys.
Proof.
  revert target. induction keys as [|key keys IH]; intros [|t target]; try done.
  rewrite group_cells_cons. case_decide as Hk.
  - intros _. subst. by left.
  - intros H. right. by eapply IH.
Qed.

Lemma mean_Some_nonempty l m : pd.mean l = Some m → l ≠ [].
Proof. by intros H ->. Qed.

Lemma numeric_reindex n s :
  pd.numeric (pd.reindex n s) = pd.pad n <$> pd.numeric s.
Proof.
  destruct s as [l|l|l]; simpl; try done.
  f_equal. unfold pd.pad. rewrite fmap_app, fmap_replicate, length_fmap. done.
Qed.

(** ** The categories of one column *)

Lemma has_nan_obj cells : has_nan (ObjSeries cells) = false → None ∉ cells.
Proof. simpl. by intros H%bool_decide_eq_false. Qed.

Lemma elem_of_omap_id {A} (l : list (option A)) x : x ∈ omap id l ↔ Some x ∈ l.
Proof.
  rewrite list_elem_of_omap. split.
  - by intros ([y|] & Hy & [= ->]).
  - intros Hx. by exists (Some x).
Qed.

Lemma arbitrary_index_Ok X v t :
  arbitrary_index X v = Ok t →
  ∃ cells, pd.select X v = [ObjSeries cells] ∧ t = pd.unique (omap id cells).
Proof.
  unfold arbitrary_index.
  destruct (pd.select X v) as [|[cells| |] [|]]; try done.
  intros [= <-]. eauto.
Qed.

Lemma groupby_mean_index keys target :
  pd.index (pd.groupby_mean keys target)
  = pd.sort String.leb (pd.unique (omap id keys)).
Proof.
  unfold pd.index, pd.groupby_mean. rewrite <- list_fmap_compose.
  apply list_fmap_id.
Qed.

Lemma ordered_index_Permutation keys target :
  pd.index (pd.sort_values (pd.groupby_mean keys target))
  ≡ₚ pd.unique (omap id keys).
Proof.
  unfold pd.index, pd.sort_values. rewrite sort_Permutation.
  fold (pd.index (pd.groupby_mean keys target)).
  rewrite groupby_mean_index. apply sort_Permutation.
Qed.

Lemma select_joined X y v :
  pd.select (joined X y) v =
  (pd.reindex (Nat.max (pd.nrows X) (pd.len y)) <$> pd.select X v)
  ++ (if decide (v = "target")
      then [pd.reindex (Nat.max (pd.nrows X) (pd.len y)) y] else []).
Proof.
  unfold joined. rewrite select_app, select_reindex. f_equal.
  unfold pd.select. rewrite filter_cons. simpl.
  destruct (decide ("target" = v)) as [<-|Hne].
  - by rewrite decide_True.
  - by rewrite decide_False.
Qed.

Lemma ordered_index_joined X y v t :
  pd.select X v ≠ [] →
  ordered_index (joined X y) v = Ok t →
  ∃ cells ys,
    pd.select X v = [ObjSeries cells] ∧ pd.numeric y = Some ys ∧
    t = pd.index
          (pd.sort_values
             (pd.groupby_mean
                (pd.pad (Nat.max (pd.nrows X) (pd.len y)) cells)
                (pd.pad (Nat.max (pd.nrows X) (pd.len y)) ys))).
Proof.
  intros Hv. unfold ordered_index. rewrite !select_joined.
  rewrite (decide_True (P := "target" = "target")) by done.
  destruct (pd.select X v) as [|s [|s' rest]] eqn:Hs; [done| |].
  2: { simpl. by destruct (pd.reindex _ s). }
  destruct (decide (v = "target")) as [->|Hne].
  { simpl. by destruct (pd.reindex _ s). }
  destruct s as [cells| |]; simpl; try done.
  destruct (pd.select X "target") as [|s1 rest1]; simpl.
  2: { by destruct rest1. }
  rewrite numeric_reindex.
  destruct (pd.numeric y) as [ys|]; simpl; [|done].
  intros [= <-]. eauto.
Qed.

Lemma column_index_categories method X y temp v t :
  join_target method X y = Ok temp →
  valid_column X v →
  column_index method temp X v = Ok t →
  ∃ cells, pd.select X v = [ObjSeries cells] ∧ (None ∉ cells) ∧
           t ≡ₚ pd.unique (omap id cells).
Proof.
  intros Hjoin [Hne Hall] Ht.
  assert (∃ cells, pd.select X v = [ObjSeries cells] ∧
                   t ≡ₚ pd.unique (omap id cells)) as (cells & Hsel & Hperm).
  { unfold column_index in Ht. destruct (decide (method = "ordered")) as [->|Hm].
    - rewrite join_target_ordered in Hjoin.
      destruct y as [y|]; [|done]. injection Hjoin as <-.
      apply ordered_index_joined in Ht as (cells & ys & Hsel & _ & ->); [|done].
      exists cells. split; [done|].
      by rewrite ordered_index_Permutation, omap_pad.
    - destruct (decide (method = "arbitrary")); [|done].
      apply arbitrary_index_Ok in Ht as (cells & Hsel & ->). eauto. }
  exists cells. split_and!; [done| |done].
  rewrite Hsel in Hall. apply Forall_singleton in Hall as [_ Hnan].
  by apply has_nan_obj.
Qed.

(** A call of [fit] that returns has built, for every column it works on,
    the dict of the categories of that column. *)
Lemma fit_Ok_inv X y e e' :
  fit X y e = (Ok tt, e') →
  ∃ temp d,
    e' = mkOrdinalEncoder (encoding_method e) (Some (resolved_variables e X))
           (Some d) (Some (pd.shape X)) ∧
    join_target (encoding_method e) X y = Ok temp ∧
    ∀ v, v ∈ resolved_variables e X →
      valid_column X v ∧
      ∃ t, column_index (encoding_method e) temp X v = Ok t ∧
           d !! v = Some (dict_of_enumerate t).
Proof.
  intros Hfit. pose proof (fit_cases X y e) as Hc. rewrite Hfit in Hc.
  inversion Hc as [| | |temp d Hchk Hvalid Hjoin Hcols Hout]; subst.
  exists temp, d. split_and!; [done|done|].
  intros v Hv. split.
  - by eapply Forall_forall in Hvalid.
  - destruct (Hcols v Hv) as (t & ? & ? & _). eauto.
Qed.

(** ** The learned mappings *)

(** C3. After a successful [fit], in either mode, every configured column
    has its mapping in [encoder_dict_]; the codes of that mapping are exactly
    0, ..., k-1, where k is the number of distinct categories of the column
    in the fit input; no two categories share a code; and the categories
    that have a code are the ones of the column. *)
Theorem fit_codes_dense X y e e' vars v :
  fit X y e = (Ok tt, e') →
  variables e' = Some vars →
  v ∈ vars →
  ∃ cells d m,
    pd.select X v = [ObjSeries cells] ∧
    encoder_dict_ e' = Some d ∧ d !! v = Some m ∧
    (∀ z, (∃ c, m !! c = Some z) ↔
          0 ≤ z < Z.of_nat (size (list_to_set (omap id cells) : gset string))) ∧
    (∀ c1 c2 z, m !! c1 = Some z → m !! c2 = Some z → c1 = c2) ∧
    (∀ c, is_Some (m !! c) ↔ Some c ∈ cells).
Proof.
  intros (temp & d & -> & Hjoin & Hcols)%fit_Ok_inv [= <-] Hv.
  destruct (Hcols v Hv) as (Hvalid & t & Ht & Hd).
  destruct (column_index_categories _ _ _ _ _ _ Hjoin Hvalid Ht)
    as (cells & Hsel & _ & Hperm).
  assert (NoDup t) as Hnd by (rewrite Hperm; apply NoDup_unique).
  exists cells, d, (dict_of_enumerate t). split_and!; [done|done|done| | |].
  - intros z. rewrite dict_of_enumerate_codes by done.
    by rewrite Hperm, length_unique_size.
  - intros c1 c2 z. by apply dict_of_enumerate_inj.
  - intros c. rewrite dict_of_enumerate_is_Some by done.
    by rewrite Hperm, elem_of_unique, elem_of_omap_id.
Qed.

(** C2. In the "arbitrary" mode, the code of a category is the number of
    distinct categories in the rows above its first appearance: the first
    category seen has code 0, the second distinct one has code 1, and so
    on. *)
Theorem fit_arbitrary_first_seen X y e e' vars v :
  encoding_method e = "arbitrary" →
  fit X y e = (Ok tt, e') →
  variables e' = Some vars →
  v ∈ vars →
  ∃ cells d m,
    pd.select X v = [ObjSeries cells] ∧
    encoder_dict_ e' = Some d ∧ d !! v = Some m ∧
    ∀ (i : nat) c,
      cells !! i = Some (Some c) →
      (∀ j : nat, (j < i)%nat → cells !! j ≠ Some (Some c)) →
      m !! c =
      Some (Z.of_nat
              (size (list_to_set (omap id (take i cells)) : gset string))).
Proof.
  intros Hm (temp & d & -> & Hjoin & Hcols)%fit_Ok_inv [= <-] Hv.
  destruct (Hcols v Hv) as (Hvalid & t & Ht & Hd).
  unfold column_index in Ht. rewrite Hm in Ht. simpl in Ht.
  apply arbitrary_index_Ok in Ht as (cells & Hsel & ->).
  exists cells, d, (dict_of_enumerate (pd.unique (omap id cells))).
  split_and!; [done|done|done|].
  intros i c Hi Hfirst.
  apply lookup_dict_of_enumerate; [apply NoDup_unique|].
  exists (length (pd.unique (omap id (take i cells)))).
  split; [|by rewrite length_unique_size].
  assert (omap id cells
          = omap id (take i cells) ++ c :: omap id (drop (S i) cells)) as ->.
  { rewrite <- (take_drop_middle cells i (Some c)) at 1 by done.
    by rewrite omap_app. }
  apply unique_first_appearance.
  rewrite elem_of_omap_id.
  intros (j & Hj)%list_elem_of_lookup.
  apply lookup_take_Some in Hj as [Hj Hlt]. by eapply Hfirst.
Qed.

(** ** The "ordered" mode *)

Lemma StronglySorted_lookup {A} (R : relation A) (l : list A) (i j : nat) x y :
  StronglySorted R l → l !! i = Some x → l !! j = Some y → (i < j)%nat →
  R x y.
Proof.
  intros Hs Hi Hj Hlt. rewrite <- (take_drop j l) in Hs.
  eapply StronglySorted_app_1_elem_of; [exact Hs| |].
  - apply list_elem_of_lookup. exists i. by rewrite lookup_take_lt.
  - apply list_elem_of_lookup. exists 0%nat.
    by rewrite lookup_drop, Nat.add_0_r.
Qed.

Lemma value_leb_total a b : pd.value_leb a b = true ∨ pd.value_leb b a = true.
Proof.
  destruct a as [x|], b as [y|]; simpl; auto.
  rewrite !Qle_bool_iff.
  destruct (Qlt_le_dec x y) as [Hlt|Hle]; [left; by apply Qlt_le_weak|by right].
Qed.

Lemma value_leb_trans a b c :
  pd.value_leb a b = true → pd.value_leb b c = true → pd.value_leb a c = true.
Proof.
  destruct a as [x|], b as [y|], c as [z|]; simpl; try done.
  rewrite !Qle_bool_iff. apply Qle_trans.
Qed.

Lemma sort_values_sorted {K} (s : list (K * option Q)) :
  StronglySorted (λ a b, pd.value_leb a.2 b.2 = true) (pd.sort_values s).
Proof.
  unfold pd.sort_values.
  apply (sort_StronglySorted (λ a b : K * option Q, pd.value_leb a.2 b.2)).
  - intros a b. apply value_leb_total.
  - intros a b c. apply value_leb_trans.
Qed.

Lemma numeric_length s l : pd.numeric s = Some l → length l = pd.len s.
Proof.
  destruct s; simpl; [done| |]; intros [= <-]; by rewrite ?length_fmap.
Qed.

Lemma elem_of_groupby_mean keys target c :
  Some c ∈ keys →
  (c, pd.mean (pd.group_cells keys target c)) ∈ pd.groupby_mean keys target.
Proof.
  intros Hc. unfold pd.groupby_mean.
  apply list_elem_of_fmap. exists c. split; [done|].
  rewrite sort_Permutation. by rewrite elem_of_unique, elem_of_omap_id.
Qed.

(** C1, as amended. In the "ordered" mode, with a target that has one
    value per row, the codes of a configured column follow the float64 means
    that [fit] computes: when the computed mean of the target over the rows
    of category [a] is strictly less than the computed mean over the rows of
    category [b], the code of [a] is strictly less than the code of [b]. *)
Theorem fit_ordered_by_target_mean X y e e' vars v cells ys a b ma mb :
  encoding_method e = "ordered" →
  fit X (Some y) e = (Ok tt, e') →
  variables e' = Some vars →
  v ∈ vars →
  pd.select X v = [ObjSeries cells] →
  pd.numeric y = Some ys →
  length ys = length cells →
  pd.mean (pd.group_cells cells ys a) = Some ma →
  pd.mean (pd.group_cells cells ys b) = Some mb →
  (ma < mb)%Q →
  ∃ d m ca cb,
    encoder_dict_ e' = Some d ∧ d !! v = Some m ∧
    m !! a = Some ca ∧ m !! b = Some cb ∧ ca < cb.
Proof.
  intros Hm (temp & d & -> & Hjoin & Hcols)%fit_Ok_inv [= <-] Hv Hsel Hnum
    Hlen Ha Hb Hlt.
  destruct (Hcols v Hv) as ([Hne _] & t & Ht & Hd).
  rewrite Hm, join_target_ordered in Hjoin. injection Hjoin as <-.
  unfold column_index in Ht. rewrite Hm in Ht. simpl in Ht.
  apply ordered_index_joined in Ht as (cells' & ys' & Hsel' & Hnum' & ->);
    [|done].
  rewrite Hsel in Hsel'. injection Hsel' as <-.
  rewrite Hnum in Hnum'. injection Hnum' as <-.
  set (n := Nat.max (pd.nrows X) (pd.len y)) in *.
  set (L := pd.sort_values (pd.groupby_mean (pd.pad n cells) (pd.pad n ys))).
  assert (length cells ≤ n)%nat as Hcn.
  { assert (pd.len (ObjSeries cells) ≤ pd.nrows X)%nat as Hle.
    { apply (len_le_nrows X v). rewrite Hsel. by left. }
    simpl in Hle. lia. }
  assert (length ys ≤ n)%nat as Hyn.
  { apply numeric_length in Hnum. lia. }
  assert (∀ c mc, pd.mean (pd.group_cells cells ys c) = Some mc →
                  (c, Some mc) ∈ L) as Hin.
  { intros c mc Hc. unfold L, pd.sort_values. rewrite sort_Permutation.
    assert (pd.group_cells (pd.pad n cells) (pd.pad n ys) c
            = pd.group_cells cells ys c) as Heq.
    { rewrite group_cells_pad by done. by rewrite pad_id by lia. }
    rewrite <- Hc, <- Heq. apply elem_of_groupby_mean.
    apply mean_Some_nonempty, group_cells_elem_of in Hc.
    unfold pd.pad. apply elem_of_app. by left. }
  apply Hin, list_elem_of_lookup in Ha as [i Hi].
  apply Hin, list_elem_of_lookup in Hb as [j Hj].
  assert (NoDup (pd.index L)) as Hnd.
  { unfold L. rewrite ordered_index_Permutation. apply NoDup_unique. }
  assert (i < j)%nat as Hij.
  { destruct (lt_eq_lt_dec i j) as [[Hlt'| ->]|Hgt]; [done| |].
    - rewrite Hi in Hj. injection Hj as _ ->. by apply Qlt_irrefl in Hlt.
    - pose proof (StronglySorted_lookup _ _ _ _ _ _ (sort_values_sorted _)
                    Hj Hi Hgt) as Hle.
      simpl in Hle. apply Qle_bool_iff in Hle.
      by apply Qlt_not_le in Hlt. }
  exists d, (dict_of_enumerate (pd.index L)), (Z.of_nat i), (Z.of_nat j).
  split_and!; [done|done| | |lia].
  - apply lookup_dict_of_enumerate; [done|]. exists i. split; [|done].
    unfold pd.index. by rewrite list_lookup_fmap, Hi.
  - apply lookup_dict_of_enumerate; [done|]. exists j. split; [|done].
    unfold pd.index. by rewrite list_lookup_fmap, Hj.
Qed.

(** ** Construction *)

(** C6. An [encoding_method] other than 'ordered' and 'arbitrary' makes the
    construction raise a ValueError: no instance exists on which [fit] could
    be called. With one of the two values the construction returns an
    instance, not fitted yet. *)
Theorem init_encoding_method method vars :
  (method ≠ "ordered" → method ≠ "arbitrary" →
   ∃ msg, __init__ method vars = Raise (ValueError msg)) ∧
  (method = "ordered" ∨ method = "arbitrary" →
   ∃ e, __init__ method vars = Ok e ∧ encoding_method e = method ∧
        encoder_dict_ e = None).
Proof.
  unfold __init__. split.
  - intros H1 H2. rewrite decide_True; [eauto|].
    rewrite !not_elem_of_cons. split_and!; [done|done|apply not_elem_of_nil].
  - intros Hm. rewrite decide_False; [eauto|].
    intros Hn. apply Hn. destruct Hm as [->| ->]; [by left|right; by left].
Qed.

(** ** Errors of [fit] *)

(** C7. In the "ordered" mode, [fit] without a target raises and leaves
    [encoder_dict_] as it was; on an input that passes the validation, the
    exception is the ValueError that asks for the target. *)
Theorem fit_ordered_requires_target X e :
  encoding_method e = "ordered" →
  ∃ ex e',
    fit X None e = (Raise ex, e') ∧
    encoder_dict_ e' = encoder_dict_ e ∧
    (is_Ok (_check_fit_input_and_variables X e).1 →
     ex = ValueError "Please provide a target y for this encoding method").
Proof.
  intros Hm. pose proof (fit_cases X None e) as Hc.
  inversion Hc
    as [ex e' Hv Hd Heq|ex Hv _ Hj Heq|ex temp d ? ? _ _ Hj|temp d _ _ Hj];
    try (rewrite Hm, join_target_ordered in Hj; done).
  - exists ex, e'. split_and!; [done|done|]. by rewrite Hv.
  - rewrite Hm, join_target_ordered in Hj. injection Hj as <-.
    eexists _, _. split_and!; [done|done|done].
Qed.

(** C10. In the "arbitrary" mode the target plays no part: [fit] ends in
    the same way, with the same instance, whatever target it is given. *)
Theorem fit_arbitrary_ignores_target X y1 y2 e :
  encoding_method e = "arbitrary" →
  fit X y1 e = fit X y2 e.
Proof.
  intros Hm. unfold fit, mbind, M_bind.
  destruct (check_fit_input_spec X e)
    as [(ex & e' & Hc & _)|[Hc _]]; rewrite Hc; [done|].
  unfold get, lift. simpl.
  by rewrite !join_target_not_ordered by (by rewrite Hm).
Qed.

(** C9, as amended. When [fit] raises from the validation of its input or
    for the missing target, [encoder_dict_] is as it was before the call.
    When it raises later, [encoder_dict_] has already been replaced: it
    holds the mappings of the columns that the loop went through before the
    exception, and nothing else. *)
Theorem fit_error_state X y e ex e' :
  fit X y e = (Raise ex, e') →
  (¬ is_Ok (_check_fit_input_and_variables X e).1 →
   encoder_dict_ e' = encoder_dict_ e) ∧
  (¬ is_Ok (join_target (encoding_method e) X y) →
   encoder_dict_ e' = encoder_dict_ e) ∧
  (is_Ok (_check_fit_input_and_variables X e).1 →
   ∀ temp, join_target (encoding_method e) X y = Ok temp →
   ∃ d stored rest,
     encoder_dict_ e' = Some d ∧
     resolved_variables e X = stored ++ rest ∧
     (∀ v, v ∈ stored →
        ∃ t, column_index (encoding_method e) temp X v = Ok t ∧
             d !! v = Some (dict_of_enumerate t)) ∧
     (∀ v, v ∉ stored → d !! v = None)).
Proof.
  intros Hfit. pose proof (fit_cases X y e) as Hc. rewrite Hfit in Hc.
  inversion Hc
    as [ex0 e0 Hv Hd|ex0 Hv _ Hj|ex0 temp d stored rest Hv _ Hj Hvars Hin Hout|];
    subst.
  - split_and!; [done|done|]. by rewrite Hv.
  - split_and!; [done|done|]. intros _ temp. by rewrite Hj.
  - split_and!; [by rewrite Hv|by rewrite Hj|].
    intros _ temp'. rewrite Hj. intros [= <-].
    exists d, stored, rest. done.
Qed.

(** ** transform and inverse_transform *)

Lemma select_nonempty X v : pd.select X v ≠ [] ↔ v ∈ X.*1.
Proof.
  unfold pd.select. induction X as [|[l s] X IH]; simpl.
  - split; [done|by intros ?%elem_of_nil].
  - rewrite filter_cons. simpl. case_decide as Hl.
    + subst. split; [intros _; by left|done].
    + rewrite IH, elem_of_cons. naive_solver.
Qed.

Lemma select_elem_of_2 (X : DataFrame) v s : (v, s) ∈ X → s ∈ pd.select X v.
Proof.
  intros Hin. unfold pd.select. apply list_elem_of_fmap. exists (v, s).
  split; [done|]. by apply list_elem_of_filter.
Qed.

Lemma check_transform_spec X e :
  (∃ ex, _check_transform_input_and_state X e = (Raise ex, e) ∧
         ¬ (transform_input_ok e X.*1 ∧
            no_missing (default [] (variables e)) X)) ∨
  (_check_transform_input_and_state X e = (Ok X, e) ∧
   transform_input_ok e X.*1 ∧ no_missing (default [] (variables e)) X).
Proof.
  unfold _check_transform_input_and_state, transform_input_ok.
  unfold mbind, M_bind, get, raise, mret, M_ret.
  destruct (variables e) as [vars|]; [|left; naive_solver].
  destruct (encoder_dict_ e) as [d|]; [|left; naive_solver].
  destruct (input_shape_ e) as [sh|]; [|left; naive_solver].
  destruct (forallb (λ v, bool_decide (is_Some (d !! v))) vars) eqn:H1; simpl.
  2: { left. eexists. split; [done|].
       intros [(? & ? & ? & [= <-] & [= <-] & [= <-] & Hall & _) _].
       apply not_true_iff_false in H1. apply H1, forallb_forall.
       intros v Hv%list_elem_of_In. apply bool_decide_eq_true. by apply Hall. }
  destruct (forallb (λ v, bool_decide (pd.select X v ≠ [])) vars) eqn:H2; simpl.
  2: { left. eexists. split; [done|].
       intros [(? & ? & ? & [= <-] & [= <-] & [= <-] & Hall & _) _].
       apply not_true_iff_false in H2. apply H2, forallb_forall.
       intros v Hv%list_elem_of_In. apply bool_decide_eq_true.
       apply select_nonempty. by apply Hall. }
  destruct (existsb (λ v, existsb has_nan (pd.select X v)) vars) eqn:H3; simpl.
  { left. eexists. split; [done|]. intros [_ Hnan].
    apply existsb_exists in H3 as (v & Hv%list_elem_of_In & Hex).
    apply existsb_exists in Hex as (s & Hs%list_elem_of_In & Hs').
    rewrite (Hnan v s Hv Hs) in Hs'. done. }
  destruct (bool_decide (length X = sh.2)) eqn:H4; simpl.
  2: { left. eexists. split; [done|].
       intros [(? & ? & ? & [= <-] & [= <-] & [= <-] & _ & Hlen) _].
       apply bool_decide_eq_false in H4. apply H4.
       by rewrite length_fmap in Hlen. }
  right. split; [done|]. split.
  - exists vars, d, sh. split_and!; try done.
    + intros v Hv%list_elem_of_In. rewrite forallb_forall in H1, H2. split.
      * specialize (H1 v Hv). by apply bool_decide_eq_true in H1.
      * specialize (H2 v Hv). apply bool_decide_eq_true in H2.
        by apply select_nonempty.
    + apply bool_decide_eq_true in H4. by rewrite length_fmap.
  - intros v s Hv%list_elem_of_In Hs%list_elem_of_In.
    destruct (has_nan s) eqn:Hn; [|done].
    assert (existsb (λ v, existsb has_nan (pd.select X v)) vars = true)
      as Hex; [|congruence].
    apply existsb_exists. exists v. split; [done|].
    apply existsb_exists. eauto.
Qed.

Lemma transform_eq X e :
  transform X e =
  match (_check_transform_input_and_state X e).1 with
  | Ok _ =>
      (Ok (replace_configured pd.map_codes (default [] (variables e))
             (default ∅ (encoder_dict_ e)) X), e)
  | Raise ex => (Raise ex, e)
  end.
Proof.
  unfold transform, base_transform, mbind, M_bind.
  by destruct (check_transform_spec X e) as [(ex & -> & _)|[-> _]].
Qed.

Lemma inverse_transform_eq X e :
  inverse_transform X e =
  match (_check_transform_input_and_state X e).1 with
  | Ok _ =>
      (Ok (replace_configured (λ m, pd.map_labels (inv_map m))
             (default [] (variables e)) (default ∅ (encoder_dict_ e)) X), e)
  | Raise ex => (Raise ex, e)
  end.
Proof.
  unfold inverse_transform, base_inverse_transform, mbind, M_bind.
  by destruct (check_transform_spec X e) as [(ex & -> & _)|[-> _]].
Qed.

Lemma check_transform_is_Ok X e :
  is_Ok (_check_transform_input_and_state X e).1 ↔
  transform_input_ok e X.*1 ∧ no_missing (default [] (variables e)) X.
Proof.
  destruct (check_transform_spec X e) as [(ex & -> & Hn)|[-> Hok]]; simpl;
    naive_solver.
Qed.

Lemma replace_configured_labels f vars d (X : DataFrame) :
  (replace_configured f vars d X).*1 = X.*1.
Proof.
  unfold replace_configured. rewrite <- list_fmap_compose.
  apply list_fmap_ext. intros _ [l s] _. simpl.
  case_decide; [|done]. by destruct (d !! l).
Qed.

Lemma replace_configured_lookup f vars d (X : DataFrame) (p : nat) v s m :
  X !! p = Some (v, s) → v ∈ vars → d !! v = Some m →
  replace_configured f vars d X !! p = Some (v, f m s).
Proof.
  intros Hp Hv Hm. unfold replace_configured.
  rewrite list_lookup_fmap, Hp. simpl.
  by rewrite decide_True, Hm.
Qed.

(** The inverse dict of a mapping without duplicate codes. *)
Lemma inv_map_lookup (m : gmap string Z) c z :
  (∀ c1 c2 z, m !! c1 = Some z → m !! c2 = Some z → c1 = c2) →
  m !! c = Some z → inv_map m !! z = Some c.
Proof.
  intros Hinj Hc. unfold inv_map. apply elem_of_list_to_map.
  - rewrite <- list_fmap_compose. apply NoDup_fmap_2_strong.
    + intros [c1 z1] [c2 z2] H1%elem_of_map_to_list H2%elem_of_map_to_list.
      simpl. intros ->. f_equal. by eapply Hinj.
    + apply NoDup_map_to_list.
  - apply list_elem_of_fmap. exists (c, z). split; [done|].
    by apply elem_of_map_to_list.
Qed.

Lemma inv_map_lookup_None (m : gmap string Z) z :
  (∀ c, m !! c ≠ Some z) → inv_map m !! z = None.
Proof.
  intros Hz. unfold inv_map. apply not_elem_of_list_to_map.
  rewrite <- list_fmap_compose.
  intros ([c z'] & Heq & Hin%elem_of_map_to_list)%list_elem_of_fmap.
  simpl in Heq. subst. by eapply Hz.
Qed.

Lemma map_cells_lookup {A B} (f : A → option B) l (i : nat) a :
  l !! i = Some (Some a) → pd.map_cells f l !! i = Some (f a).
Proof.
  intros Hi. unfold pd.map_cells.
  change (List.map ?g l) with (g <$> l). by rewrite list_lookup_fmap, Hi.
Qed.

(** Cells that all hold a category of the mapping come back from their
    codes, and none of their codes is missing. *)
Lemma map_cells_codes_labels (m : gmap string Z) cells :
  (∀ c1 c2 z, m !! c1 = Some z → m !! c2 = Some z → c1 = c2) →
  (∀ x, x ∈ cells → ∃ c, x = Some c ∧ is_Some (m !! c)) →
  pd.map_cells (λ z, inv_map m !! z) (pd.map_cells (λ k, m !! k) cells)
  = cells ∧
  None ∉ pd.map_cells (λ k, m !! k) cells.
Proof.
  intros Hinj. induction cells as [|x cells IH]; intros Hall.
  - split; [done|]. apply not_elem_of_nil.
  - destruct (Hall x) as (c & -> & [z Hz]); [by left|].
    destruct IH as [IH1 IH2]; [intros x' Hx'; apply Hall; by right|].
    simpl. rewrite Hz. simpl. rewrite (inv_map_lookup m c z Hinj Hz).
    split; [by f_equal|]. by apply not_elem_of_cons.
Qed.

Lemma fit_Ok_mappings X y e e' vars v :
  fit X y e = (Ok tt, e') →
  variables e' = Some vars →
  v ∈ vars →
  ∃ cells d t,
    pd.select X v = [ObjSeries cells] ∧
    encoder_dict_ e' = Some d ∧ d !! v = Some (dict_of_enumerate t) ∧
    NoDup t ∧ ∀ c, c ∈ t ↔ Some c ∈ cells.
Proof.
  intros (temp & d & -> & Hjoin & Hcols)%fit_Ok_inv [= <-] Hv.
  destruct (Hcols v Hv) as (Hvalid & t & Ht & Hd).
  destruct (column_index_categories _ _ _ _ _ _ Hjoin Hvalid Ht)
    as (cells & Hsel & _ & Hperm).
  exists cells, d, t. split_and!; [done|done|done| |].
  - rewrite Hperm. apply NoDup_unique.
  - intros c. by rewrite Hperm, elem_of_unique, elem_of_omap_id.
Qed.

(** A frame whose configured columns hold categories of their mappings
    only comes back from its codes, and its codes hold no missing value. *)
Lemma replace_configured_round_trip vars d (X : DataFrame) :
  (∀ v s, (v, s) ∈ X → v ∈ vars →
     ∃ m cells,
       d !! v = Some m ∧ s = ObjSeries cells ∧
       (∀ c1 c2 z, m !! c1 = Some z → m !! c2 = Some z → c1 = c2) ∧
       (∀ x, x ∈ cells → ∃ c, x = Some c ∧ is_Some (m !! c))) →
  replace_configured (λ m, pd.map_labels (inv_map m)) vars d
    (replace_configured pd.map_codes vars d X) = X ∧
  no_missing vars (replace_configured pd.map_codes vars d X).
Proof.
  intros Hcols. split.
  - unfold replace_configured. rewrite <- list_fmap_compose.
    rewrite <- (list_fmap_id X) at 2. apply Forall_fmap_ext_1, Forall_forall.
    intros [v s] Hin. simpl. destruct (decide (v ∈ vars)) as [Hv|Hv].
    + destruct (Hcols v s Hin Hv) as (m & cells & Hm & -> & Hinj & Hall).
      rewrite Hm. simpl. rewrite decide_True, Hm by done. simpl.
      by destruct (map_cells_codes_labels m cells Hinj Hall) as [-> _].
    + simpl. by rewrite decide_False.
  - intros v s1 Hv Hs1%select_elem_of.
    unfold replace_configured in Hs1.
    apply list_elem_of_fmap in Hs1 as ([l s] & Heq & Hin). simpl in Heq.
    destruct (decide (l ∈ vars)) as [Hl|Hl].
    + destruct (Hcols l s Hin Hl) as (m & cells & Hm & -> & Hinj & Hall).
      rewrite Hm in Heq. injection Heq as -> ->. simpl.
      apply bool_decide_eq_false.
      by destruct (map_cells_codes_labels m cells Hinj Hall).
    + injection Heq as -> ->. done.
Qed.

(** C4, as amended. With a fitted encoder and a frame that [transform]
    accepts, in which every category of the configured columns was in the
    column of the same label of the fit input, [transform] returns and
    [inverse_transform] gives back the frame itself from the result. *)
Theorem inverse_transform_transform X0 y0 e0 e vars (X : DataFrame) :
  fit X0 y0 e0 = (Ok tt, e) →
  variables e = Some vars →
  is_Ok (transform X e).1 →
  categories_seen X0 vars X →
  ∃ X1,
    transform X e = (Ok X1, e) ∧ inverse_transform X1 e = (Ok X, e).
Proof.
  intros Hfit Hvars Hok Hseen.
  assert (∃ d, encoder_dict_ e = Some d) as [d Hd].
  { apply fit_Ok_inv in Hfit as (? & d & -> & _). by exists d. }
  rewrite transform_eq in Hok |- *.
  destruct (_check_transform_input_and_state X e).1 as [X'|] eqn:Hchk;
    [|done].
  assert (transform_input_ok e X.*1 ∧ no_missing vars X) as [Hlabels Hnan].
  { replace vars with (default [] (variables e)) by (by rewrite Hvars).
    apply check_transform_is_Ok. by rewrite Hchk. }
  rewrite Hvars, Hd. simpl.
  destruct (replace_configured_round_trip vars d X) as [Hback Hcodes].
  { intros v s Hin Hv. apply select_elem_of_2 in Hin.
    destruct (Hseen v s Hv Hin) as (cells & cells0 & -> & Hsel0 & Hsub).
    destruct (fit_Ok_mappings _ _ _ _ _ _ Hfit Hvars Hv)
      as (cells0' & d' & t & Hsel0' & Hd' & Hdv & Hnd & Hdom).
    rewrite Hsel0 in Hsel0'. injection Hsel0' as <-.
    rewrite Hd in Hd'. injection Hd' as <-.
    exists (dict_of_enumerate t), cells. split_and!; [done|done| |].
    - intros c1 c2 z. by apply dict_of_enumerate_inj.
    - intros [c|] Hx.
      + exists c. split; [done|].
        apply dict_of_enumerate_is_Some; [done|]. by apply Hdom, Hsub.
      + specialize (Hnan v (ObjSeries cells) Hv Hin).
        by apply has_nan_obj in Hnan. }
  eexists. split; [done|].
  rewrite inverse_transform_eq.
  assert (is_Ok (_check_transform_input_and_state
                   (replace_configured pd.map_codes vars d X) e).1) as Hchk1.
  { apply check_transform_is_Ok. rewrite replace_configured_labels, Hvars.
    done. }
  rewrite Hvars, Hd. simpl. rewrite Hback.
  by destruct (_check_transform_input_and_state
                 (replace_configured pd.map_codes vars d X) e).1.
Qed.

(** C5. A category of a configured column that has no code in the mapping
    of the column becomes NaN under [transform], and a code that the mapping
    does not contain becomes NaN under [inverse_transform]. Whether the
    input is accepted does not depend on the categories or codes it holds:
    a frame with the same labels and no missing value in the configured
    columns is accepted by both calls. *)
Theorem unseen_becomes_missing e vars d v m (X : DataFrame) (p : nat) s :
  variables e = Some vars →
  encoder_dict_ e = Some d →
  v ∈ vars →
  d !! v = Some m →
  is_Ok (_check_transform_input_and_state X e).1 →
  X !! p = Some (v, s) →
  (∀ cells, s = ObjSeries cells →
     ∃ X1 codes,
       transform X e = (Ok X1, e) ∧ X1 !! p = Some (v, IntSeries codes) ∧
       ∀ (i : nat) c,
         cells !! i = Some (Some c) → m !! c = None → codes !! i = Some None) ∧
  (∀ codes, s = IntSeries codes →
     ∃ X2 cells,
       inverse_transform X e = (Ok X2, e) ∧
       X2 !! p = Some (v, ObjSeries cells) ∧
       ∀ (i : nat) z,
         codes !! i = Some (Some z) → (∀ c, m !! c ≠ Some z) →
         cells !! i = Some None) ∧
  (∀ X' : DataFrame, X'.*1 = X.*1 → no_missing vars X' →
     is_Ok (transform X' e).1 ∧ is_Ok (inverse_transform X' e).1).
Proof.
  intros Hvars Hd Hv Hm Hchk Hp. split_and!.
  - intros cells ->. rewrite transform_eq.
    destruct (_check_transform_input_and_state X e).1; [|done].
    rewrite Hvars, Hd. simpl.
    eexists _, (pd.map_cells (λ k, m !! k) cells). split_and!; [done| |].
    + by apply (replace_configured_lookup pd.map_codes vars d X p v
                  (ObjSeries cells) m).
    + intros i c Hi Hc. erewrite map_cells_lookup by done. by rewrite Hc.
  - intros codes ->. rewrite inverse_transform_eq.
    destruct (_check_transform_input_and_state X e).1; [|done].
    rewrite Hvars, Hd. simpl.
    eexists _, (pd.map_cells (λ z, inv_map m !! z) codes).
    split_and!; [done| |].
    + by apply (replace_configured_lookup (λ m, pd.map_labels (inv_map m))
                  vars d X p v (IntSeries codes) m).
    + intros i z Hi Hz. erewrite map_cells_lookup by done.
      by rewrite inv_map_lookup_None.
  - intros X' Hlabels Hnan. apply check_transform_is_Ok in Hchk as [Hok _].
    assert (is_Ok (_check_transform_input_and_state X' e).1) as Hchk'.
    { apply check_transform_is_Ok. by rewrite Hlabels, Hvars. }
    rewrite transform_eq, inverse_transform_eq.
    by destruct (_check_transform_input_and_state X' e).1.
Qed.

End properties.

(** ** The example of the documentation, and concrete instances *)

Section instances.
#[local] Existing Instance binary64.

Example fit_ordered_colour :
  fit colour_frame (Some colour_target) ordered_encoder = (Ok tt, ordered_fitted)
  ∧ colour_mapping ordered_fitted
    = <["grey" := 0]> (<["blue" := 1]> (<["red" := 2]> ∅)).
Proof. split; vm_compute; reflexivity. Qed.

Example fit_arbitrary_colour :
  fit colour_frame None arbitrary_encoder = (Ok tt, arbitrary_fitted)
  ∧ colour_mapping arbitrary_fitted
    = <["blue" := 0]> (<["red" := 1]> (<["grey" := 2]> ∅)).
Proof. split; vm_compute; reflexivity. Qed.

Example transform_colour :
  (transform unseen_frame ordered_fitted).1
  = Ok [("colour", IntSeries [Some 1; Some 0; Some 2; None])]
  ∧ (inverse_transform [("colour", IntSeries [Some 1; Some 0; Some 2; Some 7])]
       ordered_fitted).1
    = Ok [("colour",
           ObjSeries [Some "blue"; Some "grey"; Some "red"; None])].
Proof. split; vm_compute; reflexivity. Qed.

(** The codes follow the float64 means, not the exact ones: the integers
    2^53 + 1 and 2^53 are the same float64, the two categories tie, and the
    category of the smaller exact mean gets the larger code. *)
Lemma fit_ordered_rounding_tie :
  ∃ e' m ys ma mb,
    fit letter_frame (Some large_target) letter_encoder = (Ok tt, e') ∧
    learned_mapping e' "letter" = Some m ∧
    exact_values large_target = Some ys ∧
    arithmetic_mean (pd.group_cells [Some "a"; Some "b"] ys "a") = Some ma ∧
    arithmetic_mean (pd.group_cells [Some "a"; Some "b"] ys "b") = Some mb ∧
    (mb < ma)%Q ∧
    m !! "b" = Some 1 ∧ m !! "a" = Some 0.
Proof.
  exists (fit letter_frame (Some large_target) letter_encoder).2.
  eexists _, _, _, _.
  split_and!; [vm_compute; reflexivity..|reflexivity|reflexivity|reflexivity].
Qed.

(** After [transform] has written the missing-value marker for an unseen
    category, [inverse_transform] rejects the frame: the category "blue",
    which was in the fit input, does not come back. *)
Lemma round_trip_stops_at_marker :
  Some "blue" ∈ colour_cells ∧
  transform mixed_row shapes_fitted
  = (Ok [("colour", IntSeries [Some 0]); ("shape", IntSeries [None])],
     shapes_fitted) ∧
  (inverse_transform
     [("colour", IntSeries [Some 0]); ("shape", IntSeries [None])]
     shapes_fitted).1
  = Raise (ValueError "variables contain NaN").
Proof.
  split_and!; [apply list_elem_of_here|vm_compute; reflexivity..].
Qed.

Lemma fit_ordered_by_target_mean_witness :
  ∃ d m ca cb,
    encoder_dict_ ordered_fitted = Some d ∧ d !! "colour" = Some m ∧
    m !! "grey" = Some ca ∧ m !! "blue" = Some cb ∧ ca < cb.
Proof.
  apply (fit_ordered_by_target_mean colour_frame colour_target ordered_encoder
           ordered_fitted ["colour"] "colour" colour_cells target_cells
           "grey" "blue" (colour_mean "grey") (colour_mean "blue")).
  - reflexivity.
  - vm_compute; reflexivity.
  - reflexivity.
  - apply list_elem_of_here.
  - reflexivity.
  - reflexivity.
  - reflexivity.
  - vm_compute; reflexivity.
  - vm_compute; reflexivity.
  - vm_compute; reflexivity.
Defined.

Lemma fit_arbitrary_first_seen_witness :
  ∃ cells d m,
    pd.select colour_frame "colour" = [ObjSeries cells] ∧
    encoder_dict_ arbitrary_fitted = Some d ∧ d !! "colour" = Some m ∧
    ∀ (i : nat) c,
      cells !! i = Some (Some c) →
      (∀ j : nat, (j < i)%nat → cells !! j ≠ Some (Some c)) →
      m !! c =
      Some (Z.of_nat
              (size (list_to_set (omap id (take i cells)) : gset string))).
Proof.
  apply (fit_arbitrary_first_seen colour_frame None arbitrary_encoder
           arbitrary_fitted ["colour"] "colour").
  - reflexivity.
  - vm_compute; reflexivity.
  - reflexivity.
  - apply list_elem_of_here.
Defined.

Lemma fit_codes_dense_witness :
  ∃ cells d m,
    pd.select colour_frame "colour" = [ObjSeries cells] ∧
    encoder_dict_ ordered_fitted = Some d ∧ d !! "colour" = Some m ∧
    (∀ z, (∃ c, m !! c = Some z) ↔
          0 ≤ z < Z.of_nat (size (list_to_set (omap id cells) : gset string))) ∧
    (∀ c1 c2 z, m !! c1 = Some z → m !! c2 = Some z → c1 = c2) ∧
    (∀ c, is_Some (m !! c) ↔ Some c ∈ cells).
Proof.
  apply (fit_codes_dense colour_frame (Some colour_target) ordered_encoder
           ordered_fitted ["colour"] "colour").
  - vm_compute; reflexivity.
  - reflexivity.
  - apply list_elem_of_here.
Defined.

Lemma inverse_transform_transform_witness :
  ∃ X1,
    transform seen_frame ordered_fitted = (Ok X1, ordered_fitted) ∧
    inverse_transform X1 ordered_fitted = (Ok seen_frame, ordered_fitted).
Proof.
  apply (inverse_transform_transform colour_frame (Some colour_target)
           ordered_encoder ordered_fitted ["colour"] seen_frame).
  - vm_compute; reflexivity.
  - reflexivity.
  - vm_compute. exact I.
  - intros v s Hv Hs. apply list_elem_of_singleton in Hv as ->.
    apply list_elem_of_singleton in Hs as ->.
    exists [Some "blue"; Some "grey"; Some "red"], colour_cells.
    split_and!; [reflexivity|reflexivity|].
    intros c Hc. unfold colour_cells. rewrite !elem_of_cons in Hc |- *.
    destruct Hc as [->|[->|[->|Hc]]]; [auto 10..|by apply elem_of_nil in Hc].
Defined.

Lemma unseen_becomes_missing_witness :
  ∃ X1 codes,
    transform unseen_frame ordered_fitted = (Ok X1, ordered_fitted) ∧
    X1 !! 0%nat = Some ("colour", IntSeries codes) ∧
    ∀ (i : nat) c,
      [Some "blue"; Some "grey"; Some "red"; Some "green"] !! i
      = Some (Some c) →
      colour_mapping ordered_fitted !! c = None → codes !! i = Some None.
Proof.
  refine (proj1 (unseen_becomes_missing ordered_fitted ["colour"]
                   (default ∅ (encoder_dict_ ordered_fitted)) "colour"
                   (colour_mapping ordered_fitted) unseen_frame 0
                   (ObjSeries
                      [Some "blue"; Some "grey"; Some "red"; Some "green"])
                   _ _ _ _ _ _) _ eq_refl).
  - reflexivity.
  - vm_compute; reflexivity.
  - apply list_elem_of_here.
  - vm_compute; reflexivity.
  - vm_compute. exact I.
  - reflexivity.
Defined.

Lemma init_encoding_method_witness :
  (∃ msg, __init__ "mean" None = Raise (ValueError msg)) ∧
  (∃ e, __init__ "ordered" None = Ok e ∧ encoding_method e = "ordered" ∧
        encoder_dict_ e = None).
Proof.
  split.
  - apply (proj1 (init_encoding_method "mean" None)); discriminate.
  - apply (proj2 (init_encoding_method "ordered" None)). by left.
Defined.

Lemma fit_ordered_requires_target_witness :
  ∃ ex e',
    fit colour_frame None ordered_encoder = (Raise ex, e') ∧
    encoder_dict_ e' = encoder_dict_ ordered_encoder ∧
    (is_Ok (_check_fit_input_and_variables colour_frame ordered_encoder).1 →
     ex = ValueError "Please provide a target y for this encoding method").
Proof. apply (fit_ordered_requires_target colour_frame ordered_encoder). reflexivity. Defined.

Lemma fit_arbitrary_ignores_target_witness :
  fit colour_frame None arbitrary_encoder
  = fit colour_frame (Some colour_target) arbitrary_encoder.
Proof.
  apply (fit_arbitrary_ignores_target colour_frame None (Some colour_target)
           arbitrary_encoder).
  reflexivity.
Defined.

(** A later error leaves the dict under construction in place of the
    mapping of the previous [fit]: here the target holds labels, and their
    mean cannot be taken. *)
Lemma fit_failure_replaces_dict :
  ∃ e',
    fit colour_frame (Some label_target) ordered_fitted
    = (Raise (DataError "No numeric types to aggregate"), e') ∧
    encoder_dict_ e' = Some ∅ ∧
    encoder_dict_ e' ≠ encoder_dict_ ordered_fitted.
Proof.
  exists (fit colour_frame (Some label_target) ordered_fitted).2.
  split_and!; [vm_compute; reflexivity|vm_compute; reflexivity|].
  intros Heq.
  apply (f_equal (λ d, default ∅ d !! "colour")) in Heq.
  vm_compute in Heq. discriminate Heq.
Qed.

(** The same happens when the consistency check fails: on a frame without
    rows the mapping of the column is empty, and it has replaced the
    previous one when the check raises. *)
Example fit_check_failure_replaces_dict :
  ∃ e',
    fit empty_frame None arbitrary_fitted
    = (Raise (ValueError "Encoder could not be fitted"), e') ∧
    encoder_dict_ e' = Some {["colour" := ∅]} ∧
    encoder_dict_ e' ≠ encoder_dict_ arbitrary_fitted.
Proof.
  exists (fit empty_frame None arbitrary_fitted).2.
  split_and!; [vm_compute; reflexivity|vm_compute; reflexivity|].
  intros Heq.
  apply (f_equal (λ d, default ∅ (default ∅ d !! "colour") !! "blue")) in Heq.
  vm_compute in Heq. discriminate Heq.
Qed.

Lemma fit_error_state_witness :
  ∃ d stored rest,
    encoder_dict_ (fit colour_frame (Some label_target) ordered_fitted).2
    = Some d ∧
    resolved_variables ordered_fitted colour_frame = stored ++ rest ∧
    (∀ v, v ∈ stored →
       ∃ t, column_index "ordered" (Some (joined colour_frame label_target))
              colour_frame v = Ok t ∧
            d !! v = Some (dict_of_enumerate t)) ∧
    (∀ v, v ∉ stored → d !! v = None).
Proof.
  refine (proj2 (proj2 (fit_error_state colour_frame (Some label_target)
                          ordered_fitted
                          (DataError "No numeric types to aggregate")
                          (fit colour_frame (Some label_target)
                             ordered_fitted).2 _)) _
            (Some (joined colour_frame label_target)) _).
  - vm_compute; reflexivity.
  - vm_compute. exact I.
  - vm_compute; reflexivity.
Defined.

(** C8, at a frame that has a feature labelled "target". The joined target
    gets that same label, the selection of "target" in the grouped frame is
    then two columns, and [fit] raises; with the feature under another label
    [fit] ranks the categories by the means of the target. *)
Theorem fit_target_label_clash :
  "target" ∈ pd.columns target_frame ∧
  (∃ temp,
     join_target "ordered" target_frame (Some colour_target) = Ok (Some temp) ∧
     pd.columns temp = ["colour"; "target"; "target"]) ∧
  (fit target_frame (Some colour_target) ordered_encoder).1
  = Raise (AttributeError "'DataFrame' object has no attribute 'name'") ∧
  (fit renamed_frame (Some colour_target) ordered_encoder).1 = Ok tt ∧
  colour_mapping (fit renamed_frame (Some colour_target) ordered_encoder).2
  = <["grey" := 0]> (<["blue" := 1]> (<["red" := 2]> ∅)).
Proof.
  split_and!.
  - apply list_elem_of_further, list_elem_of_here.
  - eexists. split; vm_compute; reflexivity.
  - vm_compute; reflexivity.
  - vm_compute; reflexivity.
  - vm_compute; reflexivity.
Qed.

End instances.

(** * Further properties of [fit] *)

Section further_properties.
Context {float64 : Float64}.

(** ** [fit] on a valid input, step by step *)

Lemma check_fit_input_valid X e :
  Forall (valid_column X) (resolved_variables e X) →
  _check_fit_input_and_variables X e
  = (Ok X, with_variables e (resolved_variables e X)).
Proof.
  intros Hvalid.
  destruct (check_fit_input_spec X e) as [(ex & e' & Hc & _)|[Hc _]]; [|done].
  exfalso. revert Hc. unfold _check_fit_input_and_variables.
  unfold mbind, M_bind, get, raise, set_variables, modify, mret, M_ret.
  fold (resolved_variables e X).
  rewrite Forall_forall in Hvalid.
  assert (forallb (λ v, bool_decide (pd.select X v ≠ []))
            (resolved_variables e X) = true) as ->.
  { apply forallb_forall. intros v Hv%list_elem_of_In.
    apply bool_decide_eq_true. by apply Hvalid. }
  assert (forallb (λ v, forallb is_object (pd.select X v))
            (resolved_variables e X) = true) as ->.
  { apply forallb_forall. intros v Hv%list_elem_of_In.
    apply forallb_forall. intros s Hs%list_elem_of_In.
    destruct (Hvalid v Hv) as [_ Hall]. rewrite Forall_forall in Hall.
    by apply Hall. }
  assert (existsb (λ v, existsb has_nan (pd.select X v))
            (resolved_variables e X) = false) as ->; [|done].
  apply not_true_iff_false. intros (v & Hv%list_elem_of_In & Hex)%existsb_exists.
  apply existsb_exists in Hex as (s & Hs%list_elem_of_In & Hnan).
  destruct (Hvalid v Hv) as [_ Hall]. rewrite Forall_forall in Hall.
  destruct (Hall s Hs) as [_ Hn]. congruence.
Qed.

Lemma check_fit_input_is_Ok X e :
  is_Ok (_check_fit_input_and_variables X e).1 ↔
  Forall (valid_column X) (resolved_variables e X).
Proof.
  split.
  - destruct (check_fit_input_spec X e) as [(ex & e' & -> & _)|[_ Hv]]; done.
  - intros Hv. by rewrite check_fit_input_valid.
Qed.

Lemma for_each_store method temp X vars e d :
  encoder_dict_ e = Some d →
  for_each vars (fit_column method temp X) e
  = ((store_mappings (column_index method temp X) vars d).1,
     with_encoder_dict e
       (store_mappings (column_index method temp X) vars d).2).
Proof.
  revert e d. induction vars as [|x vars IH]; intros e d Hd; simpl.
  - unfold mret, M_ret. f_equal. by destruct e; simplify_eq/=.
  - unfold mbind, M_bind. rewrite (fit_column_eq _ _ _ _ _ d) by done.
    destruct (column_index method temp X x) as [t|ex]; simpl.
    + by rewrite (IH _ (<[x := dict_of_enumerate t]> d)).
    + f_equal. by destruct e; simplify_eq/=.
Qed.

Lemma check_encoding_dictionary_eq e :
  _check_encoding_dictionary e
  = if dict_checked (default [] (variables e)) (default ∅ (encoder_dict_ e))
    then (Ok tt, e)
    else (Raise (ValueError "Encoder could not be fitted"), e).
Proof.
  unfold _check_encoding_dictionary, dict_checked.
  unfold mbind, M_bind, get, raise, mret, M_ret.
  by destruct (forallb _ _).
Qed.

(** [fit] on an input that passes the validation. *)
Lemma fit_valid_eq X y e :
  Forall (valid_column X) (resolved_variables e X) →
  fit X y e =
  match join_target (encoding_method e) X y with
  | Raise ex => (Raise ex, with_variables e (resolved_variables e X))
  | Ok temp =>
      let rd := store_mappings (column_index (encoding_method e) temp X)
                  (resolved_variables e X) ∅ in
      match rd.1 with
      | Raise ex =>
          (Raise ex,
           with_encoder_dict (with_variables e (resolved_variables e X)) rd.2)
      | Ok _ =>
          if dict_checked (resolved_variables e X) rd.2 then
            (Ok tt,
             mkOrdinalEncoder (encoding_method e)
               (Some (resolved_variables e X)) (Some rd.2) (Some (pd.shape X)))
          else
            (Raise (ValueError "Encoder could not be fitted"),
             with_encoder_dict (with_variables e (resolved_variables e X)) rd.2)
      end
  end.
Proof.
  intros Hvalid. unfold fit. unfold mbind at 1. unfold M_bind at 1.
  rewrite check_fit_input_valid by done.
  unfold mbind at 1. unfold M_bind at 1. unfold get at 1.
  unfold mbind at 1. unfold M_bind at 1. unfold lift at 1.
  change (encoding_method (with_variables e (resolved_variables e X)))
    with (encoding_method e).
  destruct (join_target (encoding_method e) X y) as [temp|ex]; [|done].
  unfold mbind at 1. unfold M_bind at 1.
  unfold set_encoder_dict at 1. unfold modify at 1.
  unfold mbind at 1. unfold M_bind at 1.
  unfold mbind at 1. unfold M_bind at 1. unfold get at 1.
  unfold with_variables. simpl.
  rewrite (for_each_store _ _ _ _ _ ∅) by done.
  set (rd := store_mappings _ _ _). simpl.
  destruct rd.1 as [[]|ex]; [|done].
  unfold mbind at 1. unfold M_bind at 1.
  rewrite check_encoding_dictionary_eq. simpl.
  destruct (dict_checked _ _); done.
Qed.

Lemma store_mappings_ext f g vars d :
  (∀ v, v ∈ vars → f v = g v) →
  store_mappings f vars d = store_mappings g vars d.
Proof.
  revert d. induction vars as [|x vars IH]; intros d Hfg; simpl; [done|].
  rewrite <- (Hfg x) by (by left).
  destruct (f x); [|done]. apply IH. intros v Hv. apply Hfg. by right.
Qed.

Lemma store_mappings_Ok f vars d u :
  (store_mappings f vars d).1 = Ok u →
  (∀ v, v ∈ vars →
     ∃ t, f v = Ok t ∧
          (store_mappings f vars d).2 !! v = Some (dict_of_enumerate t)) ∧
  (∀ v, v ∉ vars → (store_mappings f vars d).2 !! v = d !! v).
Proof.
  revert d. induction vars as [|x vars IH]; intros d; simpl.
  - intros _. split; [by intros v ?%elem_of_nil|done].
  - destruct (f x) as [t|ex] eqn:Hx; [|done].
    intros Hok. destruct (IH _ Hok) as [Hin Hout]. split.
    + intros v Hv. destruct (decide (v ∈ vars)) as [Hv'|Hv'];
        [by apply Hin|].
      apply elem_of_cons in Hv as [->|Hv]; [|done].
      exists t. split; [done|]. by rewrite Hout, lookup_insert_eq.
    + intros v [Hne Hv]%not_elem_of_cons.
      by rewrite Hout, lookup_insert_ne.
Qed.

(** ** The categories of a column in the "ordered" mode *)

Lemma groupby_mean_pad n keys target :
  (length keys ≤ n)%nat → (length target ≤ n)%nat →
  pd.groupby_mean (pd.pad n keys) (pd.pad n target)
  = pd.groupby_mean keys (pd.pad (length keys) target).
Proof.
  intros Hk Ht. unfold pd.groupby_mean. rewrite omap_pad.
  apply list_fmap_ext. intros _ k _. by rewrite group_cells_pad.
Qed.

(** On a validated column, the index computed on the joined frame is a
    function of the cells of the column and of the target alone, unless a
    label is carried by several columns. *)
Lemma ordered_index_joined_valid X y v :
  valid_column X v →
  ordered_index (joined X y) v =
  match pd.select X v with
  | [ObjSeries cells] =>
      if decide (v = "target") then Raise (ValueError "Grouper not 1-dimensional")
      else
        match pd.select X "target" with
        | [] =>
            match pd.numeric y with
            | Some ys => Ok (ordered_categories cells ys)
            | None => Raise (DataError "No numeric types to aggregate")
            end
        | _ :: _ =>
            Raise (AttributeError "'DataFrame' object has no attribute 'name'")
        end
  | _ => Raise (ValueError "Grouper not 1-dimensional")
  end.
Proof.
  intros [Hne Hall]. unfold ordered_index. rewrite !select_joined.
  rewrite (decide_True (P := "target" = "target")) by done.
  destruct (pd.select X v) as [|s [|s' rest]] eqn:Hs; [done| |].
  2: { apply Forall_cons in Hall as [[Hobj _] _].
       by destruct s. }
  apply Forall_singleton in Hall as [Hobj _].
  destruct s as [cells| |]; try done.
  destruct (decide (v = "target")) as [->|Hv]; [done|].
  simpl. destruct (pd.select X "target") as [|s1 rest1]; simpl.
  2: { by destruct rest1. }
  rewrite numeric_reindex.
  destruct (pd.numeric y) as [ys|] eqn:Hnum; simpl; [|done].
  do 3 f_equal. unfold ordered_categories. do 2 f_equal.
  apply groupby_mean_pad.
  - assert (pd.len (ObjSeries cells) ≤ pd.nrows X)%nat as Hle.
    { apply (len_le_nrows X v). rewrite Hs. by left. }
    simpl in Hle. lia.
  - apply numeric_length in Hnum. lia.
Qed.

Lemma fit_Ok_valid X y e e' :
  fit X y e = (Ok tt, e') →
  Forall (valid_column X) (resolved_variables e X).
Proof.
  intros Hfit. apply check_fit_input_is_Ok.
  pose proof (fit_cases X y e) as Hc. rewrite Hfit in Hc.
  inversion Hc as [| | |temp d Hchk _ _ _ _]. by rewrite Hchk.
Qed.

(** ** Fitting again *)

(** X1. What a successful [fit] leaves does not depend on what the instance
    had learned before: two instances with the same [encoding_method] and
    the same [variables] end in the same state, whatever their
    [encoder_dict_] and [input_shape_] were. *)
Theorem fit_forgets_previous_fit X y e1 e2 e' :
  encoding_method e1 = encoding_method e2 →
  variables e1 = variables e2 →
  fit X y e1 = (Ok tt, e') →
  fit X y e2 = (Ok tt, e').
Proof.
  intros Hm Hv Hfit. pose proof (fit_Ok_valid _ _ _ _ Hfit) as Hvalid.
  assert (resolved_variables e1 X = resolved_variables e2 X) as Hr.
  { unfold resolved_variables. by rewrite Hv. }
  rewrite fit_valid_eq in Hfit by done.
  rewrite fit_valid_eq by (by rewrite <- Hr).
  rewrite <- Hm, <- Hr.
  destruct (join_target (encoding_method e1) X y) as [temp|]; [|done].
  simpl in Hfit |- *.
  destruct (store_mappings _ _ _) as [[[]|ex] d]; simpl in Hfit |- *;
    [|done].
  by destruct (dict_checked _ _).
Qed.

(** X2. Fitting the fitted instance again on the same input changes
    nothing. *)
Theorem fit_twice X y e e' :
  fit X y e = (Ok tt, e') →
  fit X y e' = (Ok tt, e').
Proof.
  intros Hfit. pose proof (fit_Ok_valid _ _ _ _ Hfit) as Hvalid.
  rewrite fit_valid_eq in Hfit by done.
  assert (encoding_method e' = encoding_method e ∧
          resolved_variables e' X = resolved_variables e X) as [Hm Hr].
  { destruct (join_target (encoding_method e) X y); [|done].
    simpl in Hfit.
    destruct (store_mappings _ _ _) as [[[]|ex] d]; simpl in Hfit; [|done].
    destruct (dict_checked _ _); [|done]. by injection Hfit as <-. }
  rewrite fit_valid_eq by (by rewrite Hr).
  rewrite Hm, Hr.
  destruct (join_target (encoding_method e) X y); [|done].
  simpl in Hfit |- *.
  destruct (store_mappings _ _ _) as [[[]|ex] d]; simpl in Hfit |- *; [|done].
  by destruct (dict_checked _ _).
Qed.

(** X3. After a successful [fit], [encoder_dict_] has a mapping for the
    columns [fit] worked on and for no other label, [input_shape_] is the
    shape of the frame, and [encoding_method] is as it was. *)
Theorem fit_learned_state X y e e' :
  fit X y e = (Ok tt, e') →
  ∃ vars,
    variables e' = Some vars ∧
    (∀ v, is_Some (learned_mapping e' v) ↔ v ∈ vars) ∧
    input_shape_ e' = Some (pd.nrows X, length X) ∧
    encoding_method e' = encoding_method e.
Proof.
  intros Hfit. pose proof (fit_cases X y e) as Hc. rewrite Hfit in Hc.
  inversion Hc as [| | |temp d _ _ _ Hin Hout]. subst.
  exists (resolved_variables e X). split_and!; try done.
  intros v. unfold learned_mapping. simpl. split.
  - intros [m Hm]. destruct (decide (v ∈ resolved_variables e X)); [done|].
    rewrite Hout in Hm by done. done.
  - intros Hv. destruct (Hin v Hv) as (t & _ & -> & _). eauto.
Qed.

(** X4. A call of [fit] that raises leaves [input_shape_] and
    [encoding_method] as they were, also when it has already replaced
    [encoder_dict_]. *)
Theorem fit_error_keeps_shape X y e ex e' :
  fit X y e = (Raise ex, e') →
  input_shape_ e' = input_shape_ e ∧ encoding_method e' = encoding_method e.
Proof.
  intros Hfit. pose proof (fit_cases X y e) as Hc. rewrite Hfit in Hc.
  inversion Hc as [ex0 e0 Hchk _| | |]; subst; try done.
  destruct (check_fit_input_spec X e)
    as [(ex1 & e1 & Hchk1 & Hm & _ & Hs)|[Hchk1 _]].
  - rewrite Hchk in Hchk1. by injection Hchk1 as _ <-.
  - by rewrite Hchk in Hchk1.
Qed.

(** X5. An [encoding_method] that was changed after the construction to a
    value other than 'ordered' and 'arbitrary' is not detected by [fit]: on
    a valid input with at least one column to encode, the dict is reset and
    the first iteration of the loop raises on the unassigned local [t]. *)
Theorem fit_unknown_method X y e :
  encoding_method e ≠ "ordered" →
  encoding_method e ≠ "arbitrary" →
  is_Ok (_check_fit_input_and_variables X e).1 →
  resolved_variables e X ≠ [] →
  ∃ e',
    fit X y e = (Raise (NameError "t"), e') ∧
    encoder_dict_ e' = Some ∅.
Proof.
  intros Ho Ha Hvalid%check_fit_input_is_Ok Hne.
  rewrite fit_valid_eq by done.
  rewrite join_target_not_ordered by done. simpl.
  destruct (resolved_variables e X) as [|v vars]; [done|]. simpl.
  unfold column_index. rewrite !decide_False by done. simpl. eauto.
Qed.

(** ** The target in the "ordered" mode *)

(** X6. In the "ordered" mode, [fit] never returns on a frame that has a
    column labelled "target": with an input that passes the validation and
    at least one column to encode, the first iteration of the loop raises,
    and [encoder_dict_] is left empty. *)
Theorem fit_ordered_target_column X y e :
  encoding_method e = "ordered" →
  "target" ∈ pd.columns X →
  is_Ok (_check_fit_input_and_variables X e).1 →
  resolved_variables e X ≠ [] →
  ∃ ex e',
    fit X (Some y) e = (Raise ex, e') ∧ encoder_dict_ e' = Some ∅.
Proof.
  intros Hm Ht Hvalid%check_fit_input_is_Ok Hne.
  rewrite fit_valid_eq by done.
  rewrite Hm, join_target_ordered. simpl.
  destruct (resolved_variables e X) as [|v vars]; [done|]. simpl.
  apply Forall_cons in Hvalid as [Hv _].
  unfold column_index. rewrite decide_True by done.
  rewrite ordered_index_joined_valid by done.
  apply select_nonempty in Ht.
  destruct (pd.select X v) as [|[cells| |] [|]]; simpl; eauto.
  destruct (decide (v = "target")); simpl; [eauto|].
  destruct (pd.select X "target"); [done|]. simpl. eauto.
Qed.

Lemma groupby_mean_elem_of keys target k x :
  (k, x) ∈ pd.groupby_mean keys target →
  x = pd.mean (pd.group_cells keys target k).
Proof.
  unfold pd.groupby_mean. intros (k' & [= -> ->] & _)%list_elem_of_fmap. done.
Qed.

Lemma fit_ordered_column X y e e' vars v cells ys :
  encoding_method e = "ordered" →
  fit X (Some y) e = (Ok tt, e') →
  variables e' = Some vars →
  v ∈ vars →
  pd.select X v = [ObjSeries cells] →
  pd.numeric y = Some ys →
  learned_mapping e' v = Some (dict_of_enumerate (ordered_categories cells ys)).
Proof.
  intros Hm (temp & d & -> & Hjoin & Hcols)%fit_Ok_inv [= <-] Hv Hsel Hnum.
  destruct (Hcols v Hv) as (Hvalid & t & Ht & Hd).
  rewrite Hm, join_target_ordered in Hjoin. injection Hjoin as <-.
  unfold column_index in Ht. rewrite Hm in Ht. simpl in Ht.
  rewrite ordered_index_joined_valid, Hsel, Hnum in Ht by done.
  destruct (decide (v = "target")); [done|].
  destruct (pd.select X "target"); [|done].
  injection Ht as <-. done.
Qed.

(** X8. In the "ordered" mode the codes never go against the float64 means
    that [fit] computes: when the code of category [a] is less than the code
    of category [b] and the computed mean of the target over the rows of [b]
    is defined, the computed mean over the rows of [a] is defined too and is
    not greater. A category whose target values are all missing therefore
    comes after every category that has a mean. *)
Theorem fit_ordered_codes_monotone X y e e' vars v cells ys m a b ca cb mb :
  encoding_method e = "ordered" →
  fit X (Some y) e = (Ok tt, e') →
  variables e' = Some vars →
  v ∈ vars →
  pd.select X v = [ObjSeries cells] →
  pd.numeric y = Some ys →
  length ys = length cells →
  learned_mapping e' v = Some m →
  m !! a = Some ca →
  m !! b = Some cb →
  ca < cb →
  pd.mean (pd.group_cells cells ys b) = Some mb →
  ∃ ma, pd.mean (pd.group_cells cells ys a) = Some ma ∧ (ma <= mb)%Q.
Proof.
  intros Hm Hfit Hvars Hv Hsel Hnum Hlen Hmap Ha Hb Hlt Hmb.
  rewrite (fit_ordered_column _ _ _ _ _ _ _ _ Hm Hfit Hvars Hv Hsel Hnum)
    in Hmap.
  injection Hmap as <-. unfold ordered_categories in Ha, Hb.
  rewrite pad_id in Ha, Hb by lia.
  set (L := pd.sort_values (pd.groupby_mean cells ys)) in *.
  assert (NoDup (pd.index L)) as Hnd.
  { unfold L. rewrite ordered_index_Permutation. apply NoDup_unique. }
  apply lookup_dict_of_enumerate in Ha as (i & Hi & ->); [|done].
  apply lookup_dict_of_enumerate in Hb as (j & Hj & ->); [|done].
  unfold pd.index in Hi, Hj. rewrite list_lookup_fmap in Hi, Hj.
  destruct (L !! i) as [[a' x]|] eqn:HLi; [|done].
  destruct (L !! j) as [[b' x']|] eqn:HLj; [|done].
  simpl in Hi, Hj. injection Hi as ->. injection Hj as ->.
  assert (∀ (p : nat) k z, L !! p = Some (k, z) →
            z = pd.mean (pd.group_cells cells ys k)) as Hmean.
  { intros p k z Hp. apply groupby_mean_elem_of.
    apply list_elem_of_lookup_2 in Hp. unfold L, pd.sort_values in Hp.
    by rewrite sort_Permutation in Hp. }
  pose proof (StronglySorted_lookup _ _ _ _ _ _ (sort_values_sorted _)
                HLi HLj) as Hle.
  specialize (Hle ltac:(lia)). simpl in Hle.
  rewrite (Hmean _ _ _ HLi), (Hmean _ _ _ HLj), Hmb in Hle.
  destruct (pd.mean (pd.group_cells cells ys a)) as [ma|]; [|done].
  exists ma. split; [done|]. by apply Qle_bool_iff.
Qed.

(** ** One column at a time *)

Lemma column_index_local method X X' y temp temp' v t t' :
  join_target method X y = Ok temp →
  join_target method X' y = Ok temp' →
  valid_column X v →
  pd.select X v = pd.select X' v →
  column_index method temp X v = Ok t →
  column_index method temp' X' v = Ok t' →
  t = t'.
Proof.
  intros Hj Hj' Hvalid Hsel Ht Ht'.
  assert (valid_column X' v) as Hvalid'.
  { unfold valid_column in *. by rewrite <- Hsel. }
  unfold column_index in Ht, Ht'.
  destruct (decide (method = "ordered")) as [->|Hm].
  - rewrite join_target_ordered in Hj, Hj'.
    destruct y as [y|]; [|done]. injection Hj as <-. injection Hj' as <-.
    rewrite ordered_index_joined_valid in Ht, Ht' by done.
    rewrite <- Hsel in Ht'.
    destruct (pd.select X v) as [|[cells| |] [|]]; try done.
    destruct (decide (v = "target")); [done|].
    destruct (pd.select X "target"); [|done].
    destruct (pd.select X' "target"); [|done].
    destruct (pd.numeric y); [|done]. congruence.
  - destruct (decide (method = "arbitrary")); [|done].
    unfold arbitrary_index in Ht, Ht'. rewrite <- Hsel in Ht'. congruence.
Qed.

(** X9. The mapping of a column depends on that column and on the target
    only: two successful calls of [fit] in the same mode and with the same
    target give the same mapping to a column that both frames hold with the
    same cells, whatever the other columns are. *)
Theorem fit_mapping_local X X' y e1 e2 e1' e2' vars1 vars2 v :
  encoding_method e1 = encoding_method e2 →
  fit X y e1 = (Ok tt, e1') →
  fit X' y e2 = (Ok tt, e2') →
  variables e1' = Some vars1 →
  variables e2' = Some vars2 →
  v ∈ vars1 →
  v ∈ vars2 →
  pd.select X v = pd.select X' v →
  learned_mapping e1' v = learned_mapping e2' v.
Proof.
  intros Hm (temp & d & -> & Hjoin & Hcols)%fit_Ok_inv
    (temp' & d' & -> & Hjoin' & Hcols')%fit_Ok_inv [= <-] [= <-] Hv Hv' Hsel.
  destruct (Hcols v Hv) as (Hvalid & t & Ht & Hd).
  destruct (Hcols' v Hv') as (_ & t' & Ht' & Hd').
  rewrite <- Hm in Hjoin', Ht'.
  rewrite (column_index_local _ _ _ _ _ _ _ _ _ Hjoin Hjoin' Hvalid Hsel Ht Ht')
    in Hd.
  unfold learned_mapping. simpl. by rewrite Hd, Hd'.
Qed.

Lemma fit_arbitrary_column X y e e' vars v cells :
  encoding_method e = "arbitrary" →
  fit X y e = (Ok tt, e') →
  variables e' = Some vars →
  v ∈ vars →
  pd.select X v = [ObjSeries cells] →
  learned_mapping e' v
  = Some (dict_of_enumerate (pd.unique (omap id cells))).
Proof.
  intros Hm (temp & d & -> & Hjoin & Hcols)%fit_Ok_inv [= <-] Hv Hsel.
  destruct (Hcols v Hv) as (Hvalid & t & Ht & Hd).
  unfold column_index in Ht. rewrite Hm in Ht. simpl in Ht.
  unfold arbitrary_index in Ht. rewrite Hsel in Ht. injection Ht as <-.
  done.
Qed.

(** X10. In the "arbitrary" mode, rows added below the fit input do not
    change the code of any category that the input already had. *)
Theorem fit_arbitrary_more_rows
    X X' y y' e1 e2 e1' e2' vars1 vars2 v cells more c :
  encoding_method e1 = "arbitrary" →
  encoding_method e2 = "arbitrary" →
  fit X y e1 = (Ok tt, e1') →
  fit X' y' e2 = (Ok tt, e2') →
  variables e1' = Some vars1 →
  variables e2' = Some vars2 →
  v ∈ vars1 →
  v ∈ vars2 →
  pd.select X v = [ObjSeries cells] →
  pd.select X' v = [ObjSeries (cells ++ more)] →
  Some c ∈ cells →
  ∃ m m' z,
    learned_mapping e1' v = Some m ∧ learned_mapping e2' v = Some m' ∧
    m !! c = Some z ∧ m' !! c = Some z.
Proof.
  intros Hm1 Hm2 Hfit1 Hfit2 Hvars1 Hvars2 Hv1 Hv2 Hsel1 Hsel2 Hc.
  rewrite (fit_arbitrary_column _ _ _ _ _ _ _ Hm1 Hfit1 Hvars1 Hv1 Hsel1).
  rewrite (fit_arbitrary_column _ _ _ _ _ _ _ Hm2 Hfit2 Hvars2 Hv2 Hsel2).
  apply elem_of_omap_id, elem_of_unique, list_elem_of_lookup in Hc as [i Hi].
  eexists _, _, (Z.of_nat i). split_and!; [done|done| |].
  - apply lookup_dict_of_enumerate; [apply NoDup_unique|]. eauto.
  - apply lookup_dict_of_enumerate; [apply NoDup_unique|].
    exists i. split; [|done].
    rewrite omap_app. unfold pd.unique. rewrite unique_from_app.
    by apply lookup_app_l_Some.
Qed.

(** ** The rows of the target *)

Lemma pad_S {A} n (l : list (option A)) :
  pd.pad (S n) l = mjoin (l !! 0%nat) :: pd.pad n (tail l).
Proof. destruct l as [|x l]; [apply pad_nil|done]. Qed.

Lemma group_cells_rows keys t1 t2 k :
  (∀ i : nat, (i < length keys)%nat → mjoin (t1 !! i) = mjoin (t2 !! i)) →
  pd.group_cells keys (pd.pad (length keys) t1) k
  = pd.group_cells keys (pd.pad (length keys) t2) k.
Proof.
  revert t1 t2. induction keys as [|key keys IH]; intros t1 t2 Hrows; [done|].
  simpl length. rewrite !pad_S, !group_cells_cons.
  rewrite (Hrows 0%nat) by (simpl; lia).
  rewrite (IH (tail t1) (tail t2)); [done|].
  intros i Hi. specialize (Hrows (S i) ltac:(simpl; lia)).
  by destruct t1, t2.
Qed.

Lemma ordered_categories_rows cells ys1 ys2 :
  (∀ i : nat, (i < length cells)%nat → mjoin (ys1 !! i) = mjoin (ys2 !! i)) →
  ordered_categories cells ys1 = ordered_categories cells ys2.
Proof.
  intros Hrows. unfold ordered_categories, pd.groupby_mean. do 2 f_equal.
  apply list_fmap_ext. intros _ k _. by rewrite (group_cells_rows _ ys1 ys2).
Qed.

Lemma fit_raise_validation X y e ex e' :
  _check_fit_input_and_variables X e = (Raise ex, e') →
  fit X y e = (Raise ex, e').
Proof. intros Hc. unfold fit, mbind, M_bind. by rewrite Hc. Qed.

(** X12. In the "ordered" mode [fit] reads the target row by row of the
    frame and does not compare the lengths: two targets that hold the same
    value in every row of [X], a row that a target does not have counting
    as NaN, give the same outcome and the same instance. Values of the
    target below the last row of [X] are ignored. *)
Theorem fit_ordered_target_rows X y1 y2 ys1 ys2 e :
  encoding_method e = "ordered" →
  pd.numeric y1 = Some ys1 →
  pd.numeric y2 = Some ys2 →
  (∀ i : nat, (i < pd.nrows X)%nat → mjoin (ys1 !! i) = mjoin (ys2 !! i)) →
  fit X (Some y1) e = fit X (Some y2) e.
Proof.
  intros Hm Hy1 Hy2 Hrows.
  destruct (check_fit_input_spec X e) as [(ex & e' & Hc & _)|[_ Hvalid]].
  { by rewrite !(fit_raise_validation _ _ _ _ _ Hc). }
  rewrite !fit_valid_eq by done. rewrite Hm, !join_target_ordered. simpl.
  rewrite (store_mappings_ext
             (column_index "ordered" (Some (joined X y1)) X)
             (column_index "ordered" (Some (joined X y2)) X)); [done|].
  intros v Hv. rewrite Forall_forall in Hvalid.
  unfold column_index. rewrite !decide_True by done.
  rewrite !ordered_index_joined_valid, Hy1, Hy2 by (by apply Hvalid).
  destruct (pd.select X v) as [|[cells| |] [|]] eqn:Hsel; try done.
  destruct (decide (v = "target")); [done|].
  destruct (pd.select X "target"); [|done].
  f_equal. apply ordered_categories_rows. intros i Hi. apply Hrows.
  assert (pd.len (ObjSeries cells) ≤ pd.nrows X)%nat as Hle.
  { apply (len_le_nrows X v). rewrite Hsel. by left. }
  simpl in Hle. lia.
Qed.

(** X13. The dict that [fit] leaves depends on which columns are
    configured, not on their order nor on how often a column is listed. *)
Theorem fit_variables_as_set X y e1 e2 e1' e2' vs1 vs2 :
  encoding_method e1 = encoding_method e2 →
  variables e1 = Some vs1 →
  variables e2 = Some vs2 →
  (∀ v, v ∈ vs1 ↔ v ∈ vs2) →
  fit X y e1 = (Ok tt, e1') →
  fit X y e2 = (Ok tt, e2') →
  encoder_dict_ e1' = encoder_dict_ e2'.
Proof.
  intros Hm Hv1 Hv2 Hset Hfit1 Hfit2.
  pose proof (fit_cases X y e1) as Hc1. rewrite Hfit1 in Hc1.
  pose proof (fit_cases X y e2) as Hc2. rewrite Hfit2 in Hc2.
  inversion Hc1 as [| | |temp1 d1 _ _ Hj1 Hin1 Hout1]. subst.
  inversion Hc2 as [| | |temp2 d2 _ _ Hj2 Hin2 Hout2]. subst.
  rewrite <- Hm, Hj1 in Hj2. injection Hj2 as <-.
  unfold resolved_variables in *. rewrite Hv1 in *. rewrite Hv2 in *.
  simpl in *. f_equal. apply map_eq. intros v.
  destruct (decide (v ∈ vs1)) as [Hv|Hv].
  - destruct (Hin1 v Hv) as (t1 & Ht1 & -> & _).
    destruct (Hin2 v (proj1 (Hset v) Hv)) as (t2 & Ht2 & -> & _).
    rewrite <- Hm in Ht2. congruence.
  - rewrite Hout1 by done. rewrite Hout2; [done|]. by rewrite <- Hset.
Qed.

End further_properties.

(** ** Instances *)

Section further_instances.
#[local] Existing Instance binary64.

Lemma fit_forgets_previous_fit_witness :
  fit colour_frame (Some colour_target) stale_encoder = (Ok tt, ordered_fitted).
Proof.
  apply (fit_forgets_previous_fit colour_frame (Some colour_target)
           ordered_encoder stale_encoder ordered_fitted).
  - reflexivity.
  - reflexivity.
  - vm_compute; reflexivity.
Defined.

Lemma fit_twice_witness :
  fit colour_frame (Some colour_target) ordered_fitted = (Ok tt, ordered_fitted).
Proof.
  apply (fit_twice colour_frame (Some colour_target) ordered_encoder
           ordered_fitted).
  vm_compute; reflexivity.
Defined.

Lemma fit_learned_state_witness :
  ∃ vars,
    variables ordered_fitted = Some vars ∧
    (∀ v, is_Some (learned_mapping ordered_fitted v) ↔ v ∈ vars) ∧
    input_shape_ ordered_fitted
    = Some (pd.nrows colour_frame, length colour_frame) ∧
    encoding_method ordered_fitted = encoding_method stale_encoder.
Proof.
  apply (fit_learned_state colour_frame (Some colour_target) stale_encoder
           ordered_fitted).
  vm_compute; reflexivity.
Defined.

Lemma fit_error_keeps_shape_witness :
  input_shape_ (fit colour_frame (Some label_target) stale_encoder).2
  = input_shape_ stale_encoder ∧
  encoding_method (fit colour_frame (Some label_target) stale_encoder).2
  = encoding_method stale_encoder.
Proof.
  apply (fit_error_keeps_shape colour_frame (Some label_target) stale_encoder
           (DataError "No numeric types to aggregate")).
  vm_compute; reflexivity.
Defined.

Lemma fit_unknown_method_witness :
  ∃ e',
    fit colour_frame (Some colour_target) mean_encoder
    = (Raise (NameError "t"), e') ∧
    encoder_dict_ e' = Some ∅.
Proof.
  apply (fit_unknown_method colour_frame (Some colour_target) mean_encoder).
  - discriminate.
  - discriminate.
  - vm_compute. exact I.
  - discriminate.
Defined.

Lemma fit_ordered_target_column_witness :
  ∃ ex e',
    fit target_frame (Some colour_target) ordered_encoder = (Raise ex, e') ∧
    encoder_dict_ e' = Some ∅.
Proof.
  apply (fit_ordered_target_column target_frame colour_target ordered_encoder).
  - reflexivity.
  - apply list_elem_of_further, list_elem_of_here.
  - vm_compute. exact I.
  - discriminate.
Defined.

Lemma fit_ordered_codes_monotone_witness :
  ∃ ma,
    pd.mean (pd.group_cells colour_cells target_cells "grey") = Some ma ∧
    (ma <= colour_mean "blue")%Q.
Proof.
  apply (fit_ordered_codes_monotone colour_frame colour_target ordered_encoder
           ordered_fitted ["colour"] "colour" colour_cells target_cells
           (colour_mapping ordered_fitted) "grey" "blue" 0 1
           (colour_mean "blue")).
  - reflexivity.
  - vm_compute; reflexivity.
  - reflexivity.
  - apply list_elem_of_here.
  - reflexivity.
  - reflexivity.
  - reflexivity.
  - vm_compute; reflexivity.
  - vm_compute; reflexivity.
  - vm_compute; reflexivity.
  - lia.
  - vm_compute; reflexivity.
Defined.

Lemma fit_mapping_local_witness :
  learned_mapping ordered_fitted "colour"
  = learned_mapping
      (fit renamed_frame (Some colour_target) ordered_encoder).2 "colour".
Proof.
  apply (fit_mapping_local colour_frame renamed_frame (Some colour_target)
           ordered_encoder ordered_encoder ordered_fitted
           (fit renamed_frame (Some colour_target) ordered_encoder).2
           ["colour"] ["colour"] "colour").
  - reflexivity.
  - vm_compute; reflexivity.
  - vm_compute; reflexivity.
  - reflexivity.
  - reflexivity.
  - apply list_elem_of_here.
  - apply list_elem_of_here.
  - reflexivity.
Defined.

Lemma fit_arbitrary_more_rows_witness :
  ∃ m m' z,
    learned_mapping arbitrary_fitted "colour" = Some m ∧
    learned_mapping (fit longer_frame None arbitrary_encoder).2 "colour"
    = Some m' ∧
    m !! "grey" = Some z ∧ m' !! "grey" = Some z.
Proof.
  apply (fit_arbitrary_more_rows colour_frame longer_frame None None
           arbitrary_encoder arbitrary_encoder arbitrary_fitted
           (fit longer_frame None arbitrary_encoder).2
           ["colour"] ["colour"] "colour" colour_cells
           [Some "green"; Some "blue"] "grey").
  - reflexivity.
  - reflexivity.
  - vm_compute; reflexivity.
  - vm_compute; reflexivity.
  - reflexivity.
  - reflexivity.
  - apply list_elem_of_here.
  - apply list_elem_of_here.
  - reflexivity.
  - reflexivity.
  - apply list_elem_of_further, list_elem_of_further, list_elem_of_here.
Defined.

Lemma fit_ordered_target_rows_witness :
  fit colour_frame (Some colour_target) ordered_encoder
  = fit colour_frame (Some longer_target) ordered_encoder.
Proof.
  apply (fit_ordered_target_rows colour_frame colour_target longer_target
           target_cells (target_cells ++ [Some (3 # 1)%Q]) ordered_encoder).
  - reflexivity.
  - reflexivity.
  - reflexivity.
  - intros i Hi. change (pd.nrows colour_frame) with 6%nat in Hi.
    do 6 (destruct i as [|i]; [reflexivity|]). lia.
Defined.

Lemma fit_variables_as_set_witness :
  encoder_dict_ (fit colour_frame None repeated_encoder).2
  = encoder_dict_ arbitrary_fitted.
Proof.
  apply (fit_variables_as_set colour_frame None repeated_encoder
           arbitrary_encoder (fit colour_frame None repeated_encoder).2
           arbitrary_fitted ["colour"; "colour"] ["colour"]).
  - reflexivity.
  - reflexivity.
  - reflexivity.
  - intros v. rewrite !elem_of_cons. tauto.
  - vm_compute; reflexivity.
  - vm_compute; reflexivity.
Defined.

End further_instances.
